(** * Table parser of dissect.target command-output addons

    Shallow embedding of
    [dissect/target/helpers/addons/command_parser/table_parser.py]:
    [TableParser] (column boundary inference and row parsing) and
    [LinuxTableCommandParser] (header detection, table parsing, column
    name normalisation and alias mapping).

    Python strings are modelled as [string] (ASCII characters); Python
    dictionaries, which keep insertion order, as association lists
    updated in place ([dict_set]); [None] as [option]. *)

From Stdlib Require Import Arith Lia List Bool ZArith.
From Stdlib Require Import Strings.String Strings.Ascii.
Import ListNotations.
Open Scope string_scope.
Open Scope list_scope.
Open Scope nat_scope.

(* ------------------------------------------------------------------ *)
(** ** Characters and string helpers (Python [str] methods) *)

(** [str.isspace] / regex [\s] on ASCII: 9..13 and 28..32. *)
Definition is_space (c : ascii) : bool :=
  let n := nat_of_ascii c in
  ((9 <=? n) && (n <=? 13)) || ((28 <=? n) && (n <=? 32)).

Definition in_range (lo hi : nat) (c : ascii) : bool :=
  (lo <=? nat_of_ascii c) && (nat_of_ascii c <=? hi).

(** Regex class [[a-zA-Z0-9]]. *)
Definition is_alnum (c : ascii) : bool :=
  in_range 97 122 c || in_range 65 90 c || in_range 48 57 c.

(** [str.lower] / [str.upper] on ASCII. *)
Definition ascii_lower (c : ascii) : ascii :=
  if in_range 65 90 c then ascii_of_nat (nat_of_ascii c + 32) else c.

Definition ascii_upper (c : ascii) : ascii :=
  if in_range 97 122 c then ascii_of_nat (nat_of_ascii c - 32) else c.

Fixpoint str_map (f : ascii -> ascii) (s : string) : string :=
  match s with
  | EmptyString => EmptyString
  | String c r => String (f c) (str_map f r)
  end.

Definition lower (s : string) : string := str_map ascii_lower s.
Definition upper (s : string) : string := str_map ascii_upper s.

(** [str.lstrip()] and [str.rstrip()] with the default whitespace set,
    and [str.strip(ch)] for one character. *)
Fixpoint lstrip_by (p : ascii -> bool) (s : string) : string :=
  match s with
  | EmptyString => EmptyString
  | String c r => if p c then lstrip_by p r else s
  end.

Fixpoint rstrip_by (p : ascii -> bool) (s : string) : string :=
  match s with
  | EmptyString => EmptyString
  | String c r =>
      let r' := rstrip_by p r in
      match r' with
      | EmptyString => if p c then EmptyString else String c EmptyString
      | _ => String c r'
      end
  end.

Definition rstrip (s : string) : string := rstrip_by is_space s.
Definition strip (s : string) : string := lstrip_by is_space (rstrip_by is_space s).

(** Python slicing [s[a:]] and [s[a:b]] for non-negative [a], [b]. *)
Definition slice_from (a : nat) (s : string) : string :=
  substring a (String.length s) s.
Definition slice (a b : nat) (s : string) : string :=
  substring a (b - a) s.

(** [" ".join(l)]. *)
Fixpoint join (sep : string) (l : list string) : string :=
  match l with
  | [] => ""
  | [x] => x
  | x :: r => x ++ sep ++ join sep r
  end.

(* ------------------------------------------------------------------ *)
(** ** [re.finditer(r'\S+', s)] and [str.split()] *)

(** A match object: the matched text and its [start()] / [end()]. *)
Record token := mk_token { tok_text : string; tok_start : nat; tok_end : nat }.

(** Left-to-right scan; [cur] is the run being read (its start and its
    characters so far, reversed). *)
Fixpoint finditer_aux (pos : nat) (cur : option (nat * list ascii)) (s : string)
  : list token :=
  let emit := match cur with
              | None => []
              | Some (st, w) =>
                  [mk_token (string_of_list_ascii (rev w)) st pos]
              end in
  match s with
  | EmptyString => emit
  | String c r =>
      if is_space c then emit ++ finditer_aux (S pos) None r
      else match cur with
           | None => finditer_aux (S pos) (Some (pos, [c])) r
           | Some (st, w) => finditer_aux (S pos) (Some (st, c :: w)) r
           end
  end.

Definition finditer_nonspace (s : string) : list token := finditer_aux 0 None s.

(** [str.split()] yields the same maximal non-whitespace runs. *)
Definition split (s : string) : list string := map tok_text (finditer_nonspace s).

(* ------------------------------------------------------------------ *)
(** ** Insertion-ordered dictionaries *)

Definition dict := list (string * string).

(** [d[k] = v]: an existing key keeps its position. *)
Fixpoint dict_set (k v : string) (d : dict) : dict :=
  match d with
  | [] => [(k, v)]
  | (k', v') :: r => if String.eqb k' k then (k', v) :: r else (k', v') :: dict_set k v r
  end.

Fixpoint dict_get (k : string) (d : dict) : option string :=
  match d with
  | [] => None
  | (k', v) :: r => if String.eqb k' k then Some v else dict_get k r
  end.

(** A loop of assignments [result[k] = v] starting from [{}]. *)
Definition dict_of_assignments (l : list (string * string)) : dict :=
  fold_left (fun d kv => dict_set (fst kv) (snd kv) d) l [].

(** [enumerate]: a map with the index. *)
Fixpoint imap_from {A B} (f : nat -> A -> B) (i : nat) (l : list A) : list B :=
  match l with
  | [] => []
  | x :: r => f i x :: imap_from f (S i) r
  end.
Definition imap {A B} (f : nat -> A -> B) (l : list A) : list B := imap_from f 0 l.

(* ------------------------------------------------------------------ *)
(** ** [collections.Counter(l).most_common(1)[0][0]] *)

(** [Counter(l)]: counts in first-insertion order. *)
Fixpoint counter_add (x : nat) (c : list (nat * nat)) : list (nat * nat) :=
  match c with
  | [] => [(x, 1)]
  | (k, n) :: r => if Nat.eqb k x then (k, S n) :: r else (k, n) :: counter_add x r
  end.

Definition counter (l : list nat) : list (nat * nat) :=
  fold_left (fun c x => counter_add x c) l [].

(** [most_common(1)] is [heapq.nlargest(1, items, key=count)], i.e.
    [max(items, key=count)], which keeps the first maximal item. *)
Fixpoint max_by_count (best : nat * nat) (l : list (nat * nat)) : nat * nat :=
  match l with
  | [] => best
  | x :: r => if snd best <? snd x then max_by_count x r else max_by_count best r
  end.

Definition most_common_1 (l : list nat) : option nat :=
  match counter l with
  | [] => None
  | x :: r => Some (fst (max_by_count x r))
  end.

(* ------------------------------------------------------------------ *)
(** ** [TableParser] *)

(** A column dictionary [{"name", "start", "end", "width"}]. *)
Record column := mk_column {
  col_name : string;
  col_start : nat;
  col_end : option nat;
  col_width : option Z
}.

Definition mk_col (name : string) (start : nat) (col_end : option nat) : column :=
  mk_column name start col_end
    (match col_end with
     | Some e => Some (Z.of_nat e - Z.of_nat start)%Z
     | None => None
     end).

(** [TableParser._simple_column_detection]. *)
Definition simple_column_detection (header_words : list token) : list column :=
  imap (fun i word =>
          let col_end :=
            if i <? List.length header_words - 1
            then match nth_error header_words (S i) with
                 | Some next_word => Some (tok_start next_word)
                 | None => None
                 end
            else None in
          mk_col (tok_text word) (tok_start word) col_end)
       header_words.

(** [field_split[i]["start"] for field_split in all_field_splits if i < len(field_split)]. *)
Definition starts_at (i : nat) (all_field_splits : list (list token)) : list nat :=
  flat_map (fun field_split =>
              if i <? List.length field_split
              then match nth_error field_split i with
                   | Some f => [tok_start f]
                   | None => []
                   end
              else [])
           all_field_splits.

(** [TableParser._analyze_with_sample_data]. *)
Definition analyze_with_sample_data (sample_data_lines : list string)
    (header_words : list token) : list column :=
  let all_field_splits := map finditer_nonspace sample_data_lines in
  imap (fun i header_word =>
          let header_start := tok_start header_word in
          let col_start :=
            match most_common_1 (starts_at i all_field_splits) with
            | Some most_common_start => most_common_start
            | None => header_start
            end in
          let col_end :=
            if i <? List.length header_words - 1
            then match nth_error header_words (S i) with
                 | Some next_header =>
                     match most_common_1 (starts_at (S i) all_field_splits) with
                     | Some most_common_next_start => Some most_common_next_start
                     | None => Some (tok_start next_header)
                     end
                 | None => None
                 end
            else None in
          mk_col (tok_text header_word) col_start col_end)
       header_words.

(** [TableParser.__init__] followed by [_parse_header_smart]: the
    parser's [columns]; [sample_data_lines or []] is the list itself. *)
Definition parse_header_smart (header_line : string) (sample_data_lines : list string)
  : list column :=
  let header_line := strip header_line in
  if String.eqb header_line "" then []
  else
    let header_words := finditer_nonspace header_line in
    match header_words with
    | [] => []
    | _ =>
        match sample_data_lines with
        | [] => simple_column_detection header_words
        | _ => analyze_with_sample_data sample_data_lines header_words
        end
    end.

(** [TableParser._parse_positional]: the value of column [i]. *)
Definition positional_value (ncols : nat) (line : string) (i : nat) (c : column) : string :=
  let start := col_start c in
  match col_end c with
  | Some e =>
      if Nat.eqb i (ncols - 1)
      then (if start <? String.length line then strip (slice_from start line) else "")
      else (if start <? String.length line then strip (slice start e line) else "")
  | None => if start <? String.length line then strip (slice_from start line) else ""
  end.

Definition parse_positional (columns : list column) (line : string) : dict :=
  dict_of_assignments
    (imap (fun i c => (col_name c, positional_value (List.length columns) line i c)) columns).

(** [TableParser._parse_field_based]: the value of column [i]. *)
Definition field_value (ncols : nat) (fields : list string) (i : nat) : string :=
  if i <? List.length fields
  then (if Nat.eqb i (ncols - 1)
        then join " " (skipn i fields)
        else nth i fields "")
  else "".

Definition parse_field_based (columns : list column) (line : string) : dict :=
  let fields := split line in
  dict_of_assignments
    (imap (fun i c => (col_name c, field_value (List.length columns) fields i)) columns).

(** [TableParser.parse_data_line]. *)
Definition parse_data_line (columns : list column) (line : string) : dict :=
  match columns with
  | [] => []
  | _ =>
      let line := rstrip line in
      let positional_result := parse_positional columns line in
      let field_result := parse_field_based columns line in
      if Nat.eqb (List.length field_result) (List.length columns)
      then field_result
      else positional_result
  end.

Example split_ex : split "  root   1 /sbin/init " = ["root"; "1"; "/sbin/init"].
Proof. reflexivity. Qed.
Example strip_ex : strip "  a b  " = "a b".
Proof. reflexivity. Qed.
Example slice_ex : slice 5 9 "root 1 /sbin/init" = "1 /s".
Proof. reflexivity. Qed.
(* ------------------------------------------------------------------ *)
(** ** [LinuxTableCommandParser] *)

Definition header_indicators : list string :=
  ["PID"; "PPID"; "USER"; "TIME"; "CMD"; "COMMAND"; "STAT"; "RSS"; "VSZ";
   "PORT"; "PROTO"; "STATE"; "ADDRESS"; "NAME"; "TYPE"; "SIZE"].

Definition str_in (x : string) (l : list string) : bool := existsb (String.eqb x) l.

(** The per-line test of [detect_header_line] ([false] means [continue]). *)
Definition header_line_test (line : string) : bool :=
  let line := strip line in
  if String.eqb line "" || String.prefix "#" line || String.prefix "//" line
  then false
  else
    let words := split line in
    if 2 <=? List.length words
    then
      let header_word_count :=
        List.length (filter (fun word => str_in (upper word) header_indicators) words) in
      2 <=? header_word_count
    else false.

(** [LinuxTableCommandParser.detect_header_line]. *)
Fixpoint detect_header_line_from (i : nat) (lines : list string) : option nat :=
  match lines with
  | [] => None
  | line :: rest => if header_line_test line then Some i else detect_header_line_from (S i) rest
  end.

Definition detect_header_line (lines : list string) : option nat :=
  detect_header_line_from 0 lines.

(** The loop over data lines of [parse_table_output]. *)
Fixpoint parse_rows (columns : list column) (data_lines : list string) : list dict :=
  match data_lines with
  | [] => []
  | line :: rest =>
      let line := strip line in
      if String.eqb line "" then parse_rows columns rest
      else
        match parse_data_line columns line with
        | [] => parse_rows columns rest
        | parsed_row => parsed_row :: parse_rows columns rest
        end
  end.

(** [LinuxTableCommandParser.parse_table_output]; the returned rows (the
    [table_parser] attribute it stores is the parser built from
    [parse_header_smart]). *)
Definition parse_table_output (lines : list string) (skip_lines : nat) : list dict :=
  let lines := if 0 <? skip_lines then skipn skip_lines lines else lines in
  match detect_header_line lines with
  | None => []
  | Some header_index =>
      let header_line := nth header_index lines "" in
      let data_lines := skipn (S header_index) lines in
      let sample_lines := filter (fun l => negb (String.eqb (strip l) "")) (firstn 5 data_lines) in
      let columns := parse_header_smart header_line sample_lines in
      parse_rows columns data_lines
  end.

(** [re.sub(r'[^a-zA-Z0-9]', '_', s)]. *)
Definition replace_non_alnum (s : string) : string :=
  str_map (fun c => if is_alnum c then c else "_"%char) s.

(** [re.sub(r'_+', '_', s)]; [in_run] says an underscore was just emitted. *)
Fixpoint collapse_underscores (in_run : bool) (s : string) : string :=
  match s with
  | EmptyString => EmptyString
  | String c r =>
      if Ascii.eqb c "_"%char
      then (if in_run then collapse_underscores true r
            else String "_"%char (collapse_underscores true r))
      else String c (collapse_underscores false r)
  end.

Definition is_underscore (c : ascii) : bool := Ascii.eqb c "_"%char.

(** [s.strip('_')]. *)
Definition strip_underscores (s : string) : string :=
  lstrip_by is_underscore (rstrip_by is_underscore s).

(** [LinuxTableCommandParser.normalize_column_name]. *)
Definition normalize_column_name (name : string) : string :=
  let normalized := replace_non_alnum (lower name) in
  let normalized := collapse_underscores false normalized in
  let normalized := strip_underscores normalized in
  if String.eqb normalized "" then lower name else normalized.

(** [column_mapping.get(k)]: an alias table is a dictionary. *)
Definition alias_table := dict.

(** [if not field_name]: [None] and [""] are both falsy. *)
Definition truthy (o : option string) : option string :=
  match o with
  | Some v => if String.eqb v "" then None else Some v
  | None => None
  end.

(** The key chosen for one column by [map_columns_to_fields]. *)
Definition field_name_for (column_mapping : alias_table) (column_name : string) : string :=
  match truthy (dict_get column_name column_mapping) with
  | Some f => f
  | None =>
      let normalized_name := normalize_column_name column_name in
      match truthy (dict_get normalized_name column_mapping) with
      | Some f => f
      | None => normalize_column_name column_name
      end
  end.

(** [LinuxTableCommandParser.map_columns_to_fields]. *)
Definition map_columns_to_fields (row : dict) (column_mapping : alias_table) : dict :=
  dict_of_assignments
    (map (fun kv => (field_name_for column_mapping (fst kv), snd kv)) row).

(** The whole pipeline of [ps_command]: parse the table, then map each
    row through the alias table. *)
Definition pipeline (lines : list string) (skip_lines : nat) (column_mapping : alias_table)
  : list dict :=
  map (fun row => map_columns_to_fields row column_mapping) (parse_table_output lines skip_lines).

(* ------------------------------------------------------------------ *)
(** ** Readings of the specification, to compare with the code *)

(** Case-insensitive string comparison. *)
Definition eq_ci (a b : string) : bool := String.eqb (lower a) (lower b).

(** A line qualifies as a header: after trimming it is not blank, does
    not begin with [#] or [//], has at least two whitespace-separated
    tokens, and at least two of them equal a vocabulary word up to case. *)
Definition looks_like_header (line : string) : bool :=
  let t := strip line in
  let ws := split t in
  negb (String.eqb t "") && negb (String.prefix "#" t) && negb (String.prefix "//" t)
  && (2 <=? List.length ws)
  && (2 <=? count_occ bool_dec (map (fun w => existsb (eq_ci w) header_indicators) ws) true).

(** Every run of non-alphanumeric characters becomes one underscore. *)
Fixpoint replace_runs (in_run : bool) (s : string) : string :=
  match s with
  | EmptyString => EmptyString
  | String c r =>
      if is_alnum c then String c (replace_runs false r)
      else if in_run then replace_runs true r
      else String "_"%char (replace_runs true r)
  end.

(** Normalisation as the specification words it: lowercase, one
    underscore per run of non-alphanumerics, strip underscores. *)
Definition spec_normalize (name : string) : string :=
  strip_underscores (replace_runs false (lower name)).

(** The most frequent value of a list, ties going to the value met
    first. *)
Definition max_count (l : list nat) : nat := list_max (map (count_occ Nat.eq_dec l) l).

Definition first_most_frequent (l : list nat) : option nat :=
  find (fun x => Nat.eqb (count_occ Nat.eq_dec l x) (max_count l)) l.

(* ------------------------------------------------------------------ *)
(** ** [CommandParserPlugin.parse_command_arguments] *)

(** [s.split(sep)]: every separator splits, empty parts are kept. *)
Fixpoint split_on (sep : ascii) (s : string) : list string :=
  match s with
  | EmptyString => [""]
  | String c r =>
      let parts := split_on sep r in
      if Ascii.eqb c sep then "" :: parts
      else match parts with
           | p :: ps => String c p :: ps
           | [] => [String c ""]
           end
  end.

(** The part of [s] before its last [sep], if [s] has one. *)
Fixpoint before_last (sep : ascii) (s : string) : option string :=
  match s with
  | EmptyString => None
  | String c r =>
      match before_last sep r with
      | Some p => Some (String c p)
      | None => if Ascii.eqb c sep then Some "" else None
      end
  end.

(** [s.rsplit(sep, 1)[0]]. *)
Definition rsplit1_head (sep : ascii) (s : string) : string :=
  match before_last sep s with
  | Some p => p
  | None => s
  end.

(** The [while i < len(arg_parts)] loop: a part starting with [-] takes
    the next part along as its value when that one does not start with
    [-]; the loop runs over the parts not consumed yet. *)
Fixpoint collect_arguments (arg_parts : list string) : list string :=
  match arg_parts with
  | [] => []
  | arg :: rest =>
      if String.prefix "-" arg
      then match rest with
           | next :: rest' =>
               if negb (String.prefix "-" next)
               then arg :: next :: collect_arguments rest'
               else arg :: collect_arguments rest
           | [] => [arg]
           end
      else arg :: collect_arguments rest
  end.

(** [CommandParserPlugin.parse_command_arguments]: [None] is the empty
    dictionary [{}], [Some args] is [{"arguments": args}]. *)
Definition parse_command_arguments (command_name filename : string) : option (list string) :=
  if negb (String.prefix command_name filename) then None
  else
    let args_part :=
      rsplit1_head "."%char (substring (String.length command_name)
                               (String.length filename) filename) in
    let args_part :=
      if String.prefix "_" args_part
      then substring 1 (String.length args_part) args_part else args_part in
    if String.eqb args_part "" then Some []
    else Some (collect_arguments (split_on "_"%char args_part)).

(* ------------------------------------------------------------------ *)
(** ** [LsofCommandPlugin] *)

Definition is_digit (c : ascii) : bool := in_range 48 57 c.

(** Digits of [int(s)] after the first one: one [_] may separate two
    digits. *)
Fixpoint int_digits (acc : Z) (after_underscore : bool) (s : string) : option Z :=
  match s with
  | EmptyString => if after_underscore then None else Some acc
  | String c r =>
      if is_digit c
      then int_digits (acc * 10 + Z.of_nat (nat_of_ascii c - 48))%Z false r
      else if Ascii.eqb c "_"%char
           then (if after_underscore then None else int_digits acc true r)
           else None
  end.

Definition int_unsigned (s : string) : option Z :=
  match s with
  | String c r => if is_digit c then int_digits (Z.of_nat (nat_of_ascii c - 48)) false r else None
  | EmptyString => None
  end.

(** [sys.get_int_max_str_digits()] at its default: [int()] refuses a
    numeral with more decimal digits than this. *)
Definition int_max_str_digits : nat := 4300.

Fixpoint count_digits (s : string) : nat :=
  match s with
  | EmptyString => 0
  | String c r => (if is_digit c then 1 else 0) + count_digits r
  end.

(** Python [int(s)] on a string, base 10: surrounding whitespace, an
    optional sign, digits, at most [int_max_str_digits] of them; [None]
    is [ValueError]. *)
Definition python_int (s : string) : option Z :=
  let t := strip s in
  if int_max_str_digits <? count_digits t then None
  else
    match t with
    | String c r =>
        if Ascii.eqb c "-"%char then option_map Z.opp (int_unsigned r)
        else if Ascii.eqb c "+"%char then int_unsigned r
        else int_unsigned t
    | EmptyString => None
    end.

(** [LsofCommandPlugin.safe_int]. *)
Definition safe_int (value : string) : Z :=
  if String.eqb value "" then 0%Z
  else match python_int value with Some n => n | None => 0%Z end.

Definition lsof_protocols : list string := ["TCP"; "UDP"; "UNIX"; "IPv4"; "IPv6"].

(** [LsofCommandPlugin._parse_lsof_line]. *)
Definition parse_lsof_line (line : string) : dict :=
  let fields := split line in
  if List.length fields <? 8 then []
  else
    let node := if 7 <? List.length fields then nth 7 fields "" else "" in
    let name :=
      if 8 <? List.length fields
      then
        let base_name := join " " (skipn 8 fields) in
        if negb (String.eqb node "") && str_in (upper node) lsof_protocols
        then String.append node (String.append " " base_name)
        else base_name
      else if Nat.eqb (List.length fields) 8
      then (if negb (String.eqb node "") && str_in (upper node) lsof_protocols
            then node else "")
      else "" in
    [("command", nth 0 fields ""); ("pid", nth 1 fields ""); ("user", nth 2 fields "");
     ("fd", nth 3 fields ""); ("type", nth 4 fields ""); ("device", nth 5 fields "");
     ("size_off", nth 6 fields ""); ("node", node); ("name", name)].

(** An [LsofRecord]. *)
Record lsof_record := mk_lsof_record {
  lsof_command : string; lsof_pid : Z; lsof_user : string; lsof_fd : string;
  lsof_type : string; lsof_device : string; lsof_size_off : string;
  lsof_node : string; lsof_name : string; lsof_source_file : string;
  lsof_raw_data : string
}.

Definition get_or (k d : string) (m : dict) : string :=
  match dict_get k m with Some v => v | None => d end.

(** The data-line loop of [LsofCommandPlugin.parse_command_output]. *)
Fixpoint lsof_records (source_file : string) (lines : list string) : list lsof_record :=
  match lines with
  | [] => []
  | line :: rest =>
      let line := strip line in
      if String.eqb line "" || String.prefix "#" line then lsof_records source_file rest
      else
        match parse_lsof_line line with
        | [] => lsof_records source_file rest
        | parsed_data =>
            mk_lsof_record (get_or "command" "" parsed_data)
              (safe_int (get_or "pid" "" parsed_data))
              (get_or "user" "" parsed_data) (get_or "fd" "" parsed_data)
              (get_or "type" "" parsed_data) (get_or "device" "" parsed_data)
              (get_or "size_off" "" parsed_data) (get_or "node" "" parsed_data)
              (get_or "name" "" parsed_data) source_file line
            :: lsof_records source_file rest
        end
  end.

(** [LsofCommandPlugin.parse_command_output]; [source_file] is
    [arguments.get("source_file", "")]. *)
Definition lsof_parse_command_output (lines : list string) (source_file : string)
  : list lsof_record :=
  match lines with
  | [] => []
  | _ =>
      match detect_header_line lines with
      | None => []
      | Some header_line_idx => lsof_records source_file (skipn (S header_line_idx) lines)
      end
  end.

(* ------------------------------------------------------------------ *)
(** ** Auxiliary notions of the proofs *)

(** The value of the last assignment to [k], or [acc]. *)
Definition last_assigned (k : string) (l : list (string * string)) (acc : option string) :=
  fold_left (fun a kv => if String.eqb (fst kv) k then Some (snd kv) else a) l acc.

(** [incr lo l]: [l] is strictly increasing and starts at [lo] or later. *)
Fixpoint incr (lo : nat) (l : list nat) : Prop :=
  match l with
  | [] => True
  | x :: r => lo <= x /\ incr (S x) r
  end.

(** The distinct values of a list in order of first occurrence. *)
Definition first_occurrences (l : list nat) : list nat :=
  fold_left (fun acc x => if existsb (Nat.eqb x) acc then acc else acc ++ [x]) l [].

(** [clean after s]: [s] is made of lowercase letters, digits and
    underscores, with no two underscores in a row (nor one right after an
    underscore when [after]). *)
Fixpoint clean (after : bool) (s : string) : bool :=
  match s with
  | EmptyString => true
  | String c r =>
      if is_alnum c then negb (in_range 65 90 c) && clean false r
      else Ascii.eqb c "_"%char && negb after && clean true r
  end.

(** The decimal numeral written with the digits [ds], and its value. *)
Definition digits_string (ds : list nat) : string :=
  string_of_list_ascii (map (fun d => ascii_of_nat (48 + d)) ds).

Definition digits_value (ds : list nat) : Z :=
  fold_left (fun acc d => (acc * 10 + Z.of_nat d)%Z) ds 0%Z.

Example ps_ex :
  parse_data_line (parse_header_smart "PID TTY          TIME CMD" [])
    " 1234 pts/0    00:00:01 bash"
  = [("PID", "1234"); ("TTY", "pts/0"); ("TIME", "00:00:01"); ("CMD", "bash")].
Proof. reflexivity. Qed.
Example c1_ex :
  parse_positional (parse_header_smart "USER PID COMMAND" [])
    "root 1 /sbin/init --switched-root"
  = [("USER", "root"); ("PID", "1 /s"); ("COMMAND", "bin/init --switched-root")].
Proof. reflexivity. Qed.
Example c2_ex :
  parse_header_smart "PID USER" ["        1"]
  = [mk_column "PID" 8 (Some 4) (Some (-4)%Z); mk_column "USER" 4 None None].
Proof. reflexivity. Qed.
Example det_ex :
  detect_header_line ["";"# This is a comment";
   "USER       PID %CPU %MEM    VSZ   RSS TTY      STAT START   TIME COMMAND";
   "root         1  0.0  0.1  19356  1516 ?        Ss   Jan01   0:01 /sbin/init";
   "root         2  0.0  0.0      0     0 ?        S    Jan01   0:00 [kthreadd]"] = Some 2.
Proof. reflexivity. Qed.
Example pt_ex :
  map (dict_get "COMMAND") (parse_table_output ["";"# This is a comment";
   "USER       PID %CPU %MEM    VSZ   RSS TTY      STAT START   TIME COMMAND";
   "root         1  0.0  0.1  19356  1516 ?        Ss   Jan01   0:01 /sbin/init";
   "root         2  0.0  0.0      0     0 ?        S    Jan01   0:00 [kthreadd]"] 0)
  = [Some "/sbin/init"; Some "[kthreadd]"].
Proof. reflexivity. Qed.
Example norm_ex : map normalize_column_name ["PID";"%CPU";"%MEM";"COMMAND";"USER-NAME";"__TEST__";"%"]
  = ["pid";"cpu";"mem";"command";"user_name";"test";"%"].
Proof. reflexivity. Qed.

(* ------------------------------------------------------------------ *)
(** ** Dictionaries built by a loop of assignments *)

Lemma dict_get_set k k' v d :
  dict_get k (dict_set k' v d) = if String.eqb k' k then Some v else dict_get k d.
Proof.
  induction d as [|[a b] r IH]; simpl.
  - destruct (String.eqb k' k); reflexivity.
  - destruct (String.eqb a k') eqn:E1.
    + apply String.eqb_eq in E1; subst a. simpl.
      destruct (String.eqb k' k); reflexivity.
    + simpl. rewrite IH.
      destruct (String.eqb a k) eqn:E2, (String.eqb k' k) eqn:E3; try reflexivity.
      apply String.eqb_eq in E2; apply String.eqb_eq in E3; subst.
      rewrite String.eqb_refl in E1; discriminate.
Qed.

Lemma dict_get_assignments_from k l d :
  dict_get k (fold_left (fun d kv => dict_set (fst kv) (snd kv) d) l d)
  = last_assigned k l (dict_get k d).
Proof.
  revert d; induction l as [|[a b] r IH]; intro d; simpl; [reflexivity|].
  rewrite IH, dict_get_set. reflexivity.
Qed.

Lemma dict_get_assignments k l :
  dict_get k (dict_of_assignments l) = last_assigned k l None.
Proof. apply dict_get_assignments_from. Qed.

Lemma dict_set_fresh k v d :
  ~ In k (map fst d) -> dict_set k v d = d ++ [(k, v)].
Proof.
  induction d as [|[a b] r IH]; simpl; intro H; [reflexivity|].
  destruct (String.eqb a k) eqn:E.
  - apply String.eqb_eq in E; subst. exfalso; auto.
  - rewrite IH; auto.
Qed.

Lemma assignments_nodup_from l d :
  NoDup (map fst (d ++ l)) ->
  fold_left (fun d kv => dict_set (fst kv) (snd kv) d) l d = d ++ l.
Proof.
  revert d; induction l as [|[a b] r IH]; intros d H; simpl.
  - rewrite app_nil_r; reflexivity.
  - rewrite dict_set_fresh.
    + rewrite IH; [rewrite <- app_assoc; reflexivity|].
      rewrite <- app_assoc; exact H.
    + rewrite map_app in H. simpl in H.
      apply NoDup_remove_2 in H. rewrite in_app_iff in H. simpl. tauto.
Qed.

Lemma assignments_nodup l :
  NoDup (map fst l) -> dict_of_assignments l = l.
Proof. intro H. apply (assignments_nodup_from l []). exact H. Qed.

Lemma dict_get_nodup_in k v d :
  NoDup (map fst d) -> In (k, v) d -> dict_get k d = Some v.
Proof.
  induction d as [|[a b] r IH]; simpl; intros Hn Hi; [contradiction|].
  inversion Hn as [|? ? Hnot Hn']; subst.
  destruct Hi as [Heq|Hi].
  - inversion Heq; subst. rewrite String.eqb_refl. reflexivity.
  - destruct (String.eqb a k) eqn:E; [|auto].
    apply String.eqb_eq in E; subst.
    exfalso; apply Hnot. apply (in_map fst) in Hi. exact Hi.
Qed.

(* ------------------------------------------------------------------ *)
(** ** [enumerate] *)

Lemma imap_from_length {A B} (f : nat -> A -> B) i l :
  List.length (imap_from f i l) = List.length l.
Proof. revert i; induction l; intro i; simpl; auto. Qed.

Lemma imap_from_nth_error {A B} (f : nat -> A -> B) i l n :
  nth_error (imap_from f i l) n = option_map (f (i + n)) (nth_error l n).
Proof.
  revert i n; induction l as [|x r IH]; intros i n; destruct n; simpl; auto.
  - rewrite Nat.add_0_r. reflexivity.
  - rewrite IH. f_equal. f_equal. lia.
Qed.

Lemma imap_from_app {A B} (f : nat -> A -> B) i l1 l2 :
  imap_from f i (l1 ++ l2) = imap_from f i l1 ++ imap_from f (i + List.length l1) l2.
Proof.
  revert i; induction l1 as [|x r IH]; intro i; simpl.
  - rewrite Nat.add_0_r. reflexivity.
  - rewrite IH. do 3 f_equal. lia.
Qed.

Lemma imap_from_map_fst {A} (g : A -> string) (h : nat -> A -> string) i l :
  map fst (imap_from (fun j c => (g c, h j c)) i l) = map g l.
Proof. revert i; induction l; intro i; simpl; f_equal; auto. Qed.

Lemma imap_from_in {A B} (f : nat -> A -> B) i l y :
  In y (imap_from f i l) -> exists n x, nth_error l n = Some x /\ y = f (i + n) x.
Proof.
  intro H. apply In_nth_error in H as [n Hn].
  rewrite imap_from_nth_error in Hn.
  destruct (nth_error l n) as [x|] eqn:E; simpl in Hn; [|discriminate].
  inversion Hn; subst. eauto.
Qed.

(* ------------------------------------------------------------------ *)
(** ** Row parsing *)

Lemma parse_field_based_nodup columns line :
  NoDup (map col_name columns) ->
  parse_field_based columns line
  = imap (fun i c => (col_name c, field_value (List.length columns) (split line) i)) columns.
Proof.
  intro H. unfold parse_field_based. apply assignments_nodup.
  unfold imap. rewrite imap_from_map_fst. exact H.
Qed.

Lemma parse_positional_nodup columns line :
  NoDup (map col_name columns) ->
  parse_positional columns line
  = imap (fun i c => (col_name c, positional_value (List.length columns) line i c)) columns.
Proof.
  intro H. unfold parse_positional. apply assignments_nodup.
  unfold imap. rewrite imap_from_map_fst. exact H.
Qed.

(** With pairwise distinct column names the field-based result always
    has one key per column, so [parse_data_line] always returns it. *)
Lemma parse_data_line_field_based columns line :
  columns <> [] -> NoDup (map col_name columns) ->
  parse_data_line columns line = parse_field_based columns (rstrip line).
Proof.
  intros Hne Hn. unfold parse_data_line.
  destruct columns as [|c0 cs]; [congruence|].
  cbv zeta. rewrite (parse_field_based_nodup _ _ Hn).
  unfold imap. rewrite imap_from_length, Nat.eqb_refl. reflexivity.
Qed.

(** ** C10: keys of a parsed row *)

(** C10: for pairwise distinct, non-empty column names, the keys of
    [parse_data_line] are exactly the column names in header order;
    without columns the result is the empty mapping. *)
Theorem parse_data_line_keys (columns : list column) (line : string) :
  (columns = [] -> parse_data_line columns line = []) /\
  (columns <> [] -> NoDup (map col_name columns) ->
   map fst (parse_data_line columns line) = map col_name columns).
Proof.
  split.
  - intro H; subst; reflexivity.
  - intros Hne Hn. rewrite (parse_data_line_field_based _ _ Hne Hn).
    rewrite (parse_field_based_nodup _ _ Hn). unfold imap.
    apply imap_from_map_fst.
Qed.

Lemma parse_data_line_keys_witness :
  map fst (parse_data_line (parse_header_smart "USER PID COMMAND" []) "root") =
  ["USER"; "PID"; "COMMAND"].
Proof.
  apply (proj2 (parse_data_line_keys (parse_header_smart "USER PID COMMAND" []) "root")).
  - vm_compute. discriminate.
  - vm_compute. repeat constructor; simpl; intuition discriminate.
Defined.

(** ** C1: the strategy selection of [parse_data_line] *)


(** ** C9: positional slicing past the end of the line *)

(** C9: in positional parsing a column starting at or beyond the end of
    the line gets the empty string (the model is total: no slicing
    fails); with distinct column names that is its value in the row. *)
Theorem positional_out_of_range (columns : list column) (line : string)
    (i : nat) (c : column) :
  nth_error columns i = Some c -> String.length line <= col_start c ->
  positional_value (List.length columns) line i c = "" /\
  (NoDup (map col_name columns) ->
   dict_get (col_name c) (parse_positional columns line) = Some "").
Proof.
  intros Hc Hl.
  assert (Hv : positional_value (List.length columns) line i c = "").
  { unfold positional_value.
    replace (col_start c <? String.length line) with false
      by (symmetry; apply Nat.ltb_ge; exact Hl).
    destruct (col_end c); [destruct (Nat.eqb i _)|]; reflexivity. }
  split; [exact Hv|].
  intro Hn. rewrite (parse_positional_nodup _ _ Hn).
  apply dict_get_nodup_in.
  - unfold imap. rewrite imap_from_map_fst. exact Hn.
  - rewrite <- Hv. apply nth_error_In with i.
    unfold imap. rewrite imap_from_nth_error, Hc. reflexivity.
Qed.

Lemma positional_out_of_range_witness :
  positional_value 3 "root" 1 (mk_column "PID" 5 (Some 9) (Some 4%Z)) = "" /\
  dict_get "PID" (parse_positional (parse_header_smart "USER PID COMMAND" []) "root")
  = Some "".
Proof.
  destruct (positional_out_of_range (parse_header_smart "USER PID COMMAND" []) "root" 1
              (mk_column "PID" 5 (Some 9) (Some 4%Z))) as [H1 H2].
  - vm_compute. reflexivity.
  - simpl. lia.
  - split; [exact H1|]. apply H2. vm_compute.
    repeat constructor; simpl; intuition discriminate.
Defined.

(** ** C6: field-based parsing *)

Lemma last_assigned_app k l1 l2 acc :
  last_assigned k (l1 ++ l2) acc = last_assigned k l2 (last_assigned k l1 acc).
Proof. unfold last_assigned. apply fold_left_app. Qed.

Lemma last_assigned_all_empty k l :
  (forall p, In p l -> snd p = "") -> last_assigned k l (Some "") = Some "".
Proof.
  induction l as [|[a b] r IH]; intro H; simpl; [reflexivity|].
  assert (Hb : b = "") by exact (H (a, b) (or_introl eq_refl)). subst b.
  destruct (String.eqb a k); apply IH; intros p Hp; apply H; right; exact Hp.
Qed.

Lemma field_value_missing n fields i :
  List.length fields <= i -> field_value n fields i = "".
Proof.
  intro H. unfold field_value.
  replace (i <? List.length fields) with false by (symmetry; apply Nat.ltb_ge; exact H).
  reflexivity.
Qed.

(** C6: when a line has more whitespace fields than there are columns,
    the last column gets the remaining fields joined by one space; a
    column past the last field gets the empty string; for the header
    [USER PID COMMAND] and the line [root 1 /sbin/init --switched-root]
    the parsed [COMMAND] is [/sbin/init --switched-root]. *)
Theorem field_based_last_and_missing (columns : list column) (line : string) :
  (columns <> [] -> List.length columns < List.length (split line) ->
   forall c, nth_error columns (List.length columns - 1) = Some c ->
   dict_get (col_name c) (parse_field_based columns line)
   = Some (join " " (skipn (List.length columns - 1) (split line)))) /\
  (forall i c, nth_error columns i = Some c -> List.length (split line) <= i ->
   dict_get (col_name c) (parse_field_based columns line) = Some "") /\
  dict_get "COMMAND" (parse_data_line (parse_header_smart "USER PID COMMAND" [])
                        "root 1 /sbin/init --switched-root")
  = Some "/sbin/init --switched-root".
Proof.
  split; [|split].
  - intros Hne Hlt c Hc.
    destruct (nth_error_split _ _ Hc) as (pre & post & Heq & Hlen).
    assert (Hpost : post = []).
    { destruct post; [reflexivity|].
      apply (f_equal (@List.length column)) in Heq.
      rewrite length_app in Heq. simpl in Heq. lia. }
    subst post.
    unfold parse_field_based, dict_of_assignments.
    rewrite dict_get_assignments_from. simpl dict_get.
    set (n := List.length columns) in *.
    rewrite Heq. unfold imap. rewrite imap_from_app.
    rewrite last_assigned_app. simpl.
    rewrite String.eqb_refl. f_equal.
    unfold field_value. rewrite Hlen.
    replace (n - 1 <? List.length (split line)) with true
      by (symmetry; apply Nat.ltb_lt; lia).
    rewrite Nat.eqb_refl. reflexivity.
  - intros i c Hc Hle.
    destruct (nth_error_split _ _ Hc) as (pre & post & Heq & Hlen).
    unfold parse_field_based, dict_of_assignments.
    rewrite dict_get_assignments_from. simpl dict_get.
    set (n := List.length columns) in *.
    rewrite Heq. unfold imap. rewrite imap_from_app.
    rewrite last_assigned_app. simpl.
    rewrite String.eqb_refl, Hlen, (field_value_missing _ _ _ Hle).
    apply last_assigned_all_empty.
    intros p Hp. apply imap_from_in in Hp as (m & x & _ & ->). simpl.
    apply field_value_missing. lia.
  - vm_compute. reflexivity.
Qed.

Lemma field_based_last_and_missing_witness :
  dict_get "COMMAND" (parse_field_based (parse_header_smart "USER PID COMMAND" [])
                        "root 1 /sbin/init --switched-root")
  = Some (join " " ["/sbin/init"; "--switched-root"]) /\
  dict_get "COMMAND" (parse_field_based (parse_header_smart "USER PID COMMAND" []) "root")
  = Some "".
Proof.
  destruct (field_based_last_and_missing (parse_header_smart "USER PID COMMAND" [])
              "root 1 /sbin/init --switched-root") as [H1 _].
  destruct (field_based_last_and_missing (parse_header_smart "USER PID COMMAND" [])
              "root") as [_ [H2 _]].
  split.
  - apply (H1 ltac:(vm_compute; discriminate) ltac:(vm_compute; lia)
             (mk_column "COMMAND" 9 None None) ltac:(vm_compute; reflexivity)).
  - apply (H2 2 (mk_column "COMMAND" 9 None None) ltac:(vm_compute; reflexivity)
             ltac:(vm_compute; lia)).
Defined.

(* ------------------------------------------------------------------ *)
(** ** Column boundary inference *)

Lemma incr_weaken l : forall lo lo', lo <= lo' -> incr lo' l -> incr lo l.
Proof.
  induction l as [|x r IH]; simpl; intros lo lo' Hle H; [exact I|].
  destruct H; split; [lia|assumption].
Qed.

Lemma incr_nth l : forall lo i a b,
  incr lo l -> nth_error l i = Some a -> nth_error l (S i) = Some b -> a < b.
Proof.
  induction l as [|x r IH]; intros lo i a b H Ha Hb; [destruct i; discriminate|].
  destruct H as [_ H]. destruct i as [|i].
  - simpl in Ha, Hb. inversion Ha; subst.
    destruct r as [|y r']; [discriminate|]. simpl in Hb, H. inversion Hb; subst. lia.
  - simpl in Ha, Hb. exact (IH _ _ _ _ H Ha Hb).
Qed.

(** Match starts of [re.finditer(r'\S+', s)] strictly increase. *)
Lemma finditer_aux_incr s : forall pos,
  (forall lo, lo <= pos -> incr lo (map tok_start (finditer_aux pos None s))) /\
  (forall st w, st < pos -> incr st (map tok_start (finditer_aux pos (Some (st, w)) s))).
Proof.
  induction s as [|c r IH]; intro pos; split.
  - intros; simpl; exact I.
  - intros st w Hst; simpl. split; [lia|exact I].
  - intros lo Hlo. simpl. destruct (is_space c).
    + apply (proj1 (IH (S pos))). lia.
    + apply incr_weaken with pos; [exact Hlo|].
      apply (proj2 (IH (S pos))). lia.
  - intros st w Hst. simpl. destruct (is_space c).
    + simpl. split; [lia|]. apply (proj1 (IH (S pos))). lia.
    + apply (proj2 (IH (S pos))). lia.
Qed.

Lemma finditer_incr s : incr 0 (map tok_start (finditer_nonspace s)).
Proof. apply (proj1 (finditer_aux_incr s 0)). lia. Qed.

Lemma imap_from_map_const {A B C} (f : nat -> A -> B) (g : B -> C) (h : A -> C) i l :
  (forall j x, g (f j x) = h x) -> map g (imap_from f i l) = map h l.
Proof.
  intro H; revert i; induction l as [|x r IH]; intro i; simpl; [reflexivity|].
  rewrite H, IH. reflexivity.
Qed.

Lemma simple_column_detection_names ws :
  map col_name (simple_column_detection ws) = map tok_text ws.
Proof. apply imap_from_map_const. reflexivity. Qed.

Lemma analyze_with_sample_data_names samples ws :
  map col_name (analyze_with_sample_data samples ws) = map tok_text ws.
Proof. apply imap_from_map_const. reflexivity. Qed.

Lemma parse_header_smart_names header samples :
  map col_name (parse_header_smart header samples) = split (strip header).
Proof.
  unfold parse_header_smart, split.
  destruct (String.eqb (strip header) "") eqn:E.
  - apply String.eqb_eq in E. rewrite E. reflexivity.
  - destruct (finditer_nonspace (strip header)) as [|w ws] eqn:F; [reflexivity|].
    rewrite <- F. destruct samples.
    + apply simple_column_detection_names.
    + apply analyze_with_sample_data_names.
Qed.

Lemma parse_header_smart_last header samples c :
  let cols := parse_header_smart header samples in
  nth_error cols (List.length cols - 1) = Some c -> col_end c = None.
Proof.
  cbv zeta. unfold parse_header_smart.
  destruct (String.eqb (strip header) "") eqn:E; [destruct (_ - 1); discriminate|].
  destruct (finditer_nonspace (strip header)) as [|w ws] eqn:F;
    [destruct (_ - 1); discriminate|].
  rewrite <- F. set (hw := finditer_nonspace (strip header)).
  destruct samples;
    unfold simple_column_detection, analyze_with_sample_data, imap;
    rewrite imap_from_length, imap_from_nth_error; simpl;
    destruct (nth_error hw (List.length hw - 1)); simpl; intro H; inversion H; subst;
    rewrite Nat.ltb_irrefl; reflexivity.
Qed.

Lemma simple_column_detection_ordered ws i c e :
  incr 0 (map tok_start ws) ->
  nth_error (simple_column_detection ws) i = Some c -> col_end c = Some e ->
  col_start c < e.
Proof.
  intros Hinc Hc He. unfold simple_column_detection, imap in Hc.
  rewrite imap_from_nth_error, Nat.add_0_l in Hc.
  destruct (nth_error ws i) as [w|] eqn:Ew; unfold option_map in Hc; [|discriminate].
  injection Hc as Hc. rewrite <- Hc in He |- *. clear Hc.
  change (match ws with [] => None | _ :: l' => nth_error l' i end)
    with (nth_error ws (S i)) in He.
  unfold mk_col in He; cbn [col_end] in He. destruct (i <? _); [|discriminate].
  destruct (nth_error ws (S i)) as [w'|] eqn:Ew'; [|discriminate].
  cbv beta iota in He. injection He as He. rewrite <- He. cbn [col_start].
  apply (incr_nth (map tok_start ws) 0 i); [exact Hinc| |]; rewrite nth_error_map.
  - rewrite Ew. reflexivity.
  - rewrite Ew'. reflexivity.
Qed.

(** C2 (as stated, refuted): with the sample line ["        1"] under the
    header ["PID USER"] (what [parse_table_output] passes for the lines
    ["PID USER"; "        1"]), the first column starts at 8, the
    majority start of the samples' first tokens, but ends at 4, the
    header's own second offset since no sample has a second token. *)
Lemma columns_start_end_counterexample :
  ~ (forall (header : string) (samples : list string),
       let cols := parse_header_smart header samples in
       (forall i c e, nth_error cols i = Some c -> col_end c = Some e -> col_start c < e) /\
       List.length cols = List.length (split (strip header)) /\
       (forall c, nth_error cols (List.length cols - 1) = Some c -> col_end c = None)).
Proof.
  intro H. destruct (H "PID USER" ["        1"]) as [Hlt _].
  specialize (Hlt 0 (mk_column "PID" 8 (Some 4) (Some (-4)%Z)) 4).
  assert (8 < 4) by (apply Hlt; vm_compute; reflexivity). lia.
Qed.

(** C2 (amended): the inferred columns are one per header token, named
    by it, in order; the last one has no end; when no sample lines are
    given every defined end lies after its start. *)
Theorem columns_shape (header : string) (samples : list string) :
  let cols := parse_header_smart header samples in
  map col_name cols = split (strip header) /\
  (forall c, nth_error cols (List.length cols - 1) = Some c -> col_end c = None) /\
  (samples = [] ->
   forall i c e, nth_error cols i = Some c -> col_end c = Some e -> col_start c < e).
Proof.
  cbv zeta. split; [apply parse_header_smart_names|split].
  - intro c. apply (parse_header_smart_last header samples c).
  - intros -> i c e. unfold parse_header_smart.
    destruct (String.eqb (strip header) "");
      [intro H; destruct i; discriminate|].
    destruct (finditer_nonspace (strip header)) as [|w ws] eqn:F;
      [intro H; destruct i; discriminate|].
    rewrite <- F. apply simple_column_detection_ordered. apply finditer_incr.
Qed.

Lemma columns_shape_witness :
  map col_name (parse_header_smart "  USER   PID COMMAND" []) = ["USER"; "PID"; "COMMAND"] /\
  col_end (mk_column "COMMAND" 11 None None) = None /\
  col_start (mk_column "PID" 7 (Some 11) (Some 4%Z)) < 11.
Proof.
  destruct (columns_shape "  USER   PID COMMAND" []) as [H1 [H2 H3]].
  split; [|split].
  - rewrite H1. vm_compute. reflexivity.
  - apply H2. vm_compute. reflexivity.
  - apply (H3 eq_refl 1); vm_compute; reflexivity.
Defined.

(* ------------------------------------------------------------------ *)
(** ** Alias mapping *)

Lemma last_assigned_some k l a : exists v, last_assigned k l (Some a) = Some v.
Proof.
  revert a; induction l as [|[x y] r IH]; intro a; simpl; [eauto|].
  destruct (String.eqb x k); apply IH.
Qed.

Lemma last_assigned_in k v l acc :
  In (k, v) l -> exists v', last_assigned k l acc = Some v'.
Proof.
  revert acc; induction l as [|[x y] r IH]; intros acc H; simpl in H |- *; [contradiction|].
  destruct H as [H|H].
  - inversion H; subst. rewrite String.eqb_refl. apply last_assigned_some.
  - apply IH. exact H.
Qed.

Lemma last_assigned_none k l acc :
  (forall kv, In kv l -> fst kv <> k) -> last_assigned k l acc = acc.
Proof.
  revert acc; induction l as [|[x y] r IH]; intros acc H; [reflexivity|]. cbn.
  destruct (String.eqb_spec x k) as [E|_].
  - exfalso. exact (H (x, y) (or_introl eq_refl) E).
  - apply IH. intros kv Hkv. apply H. now right.
Qed.

Lemma dict_set_keys k v d :
  (forall k', In k' (map fst (dict_set k v d)) <-> k' = k \/ In k' (map fst d)) /\
  (NoDup (map fst d) -> NoDup (map fst (dict_set k v d))).
Proof.
  induction d as [|[a b] r [IH1 IH2]]; cbn.
  - split; [intro k'; intuition congruence | intros _; repeat constructor; tauto].
  - destruct (String.eqb_spec a k) as [->|E]; cbn.
    + split; [intro k'; intuition congruence | tauto].
    + split.
      * intro k'. rewrite IH1. intuition congruence.
      * intros Hn. inversion Hn as [|? ? Hnot Hr]; subst. constructor; [|auto].
        rewrite IH1. intros [H|H]; [congruence | contradiction].
Qed.

Lemma fold_dict_set_keys l d :
  (forall k, In k (map fst (fold_left (fun d kv => dict_set (fst kv) (snd kv) d) l d))
             <-> In k (map fst d) \/ In k (map fst l)) /\
  (NoDup (map fst d) ->
   NoDup (map fst (fold_left (fun d kv => dict_set (fst kv) (snd kv) d) l d))).
Proof.
  revert d; induction l as [|[a b] r IH]; intro d; cbn.
  - split; [intro k; tauto | auto].
  - destruct (IH (dict_set a b d)) as [IH1 IH2].
    destruct (dict_set_keys a b d) as [K1 K2]. split.
    + intro k. rewrite IH1, K1. intuition.
    + intros Hn. apply IH2, K2, Hn.
Qed.

(** C3 (as stated, refuted): the distinct columns [%CPU] and [CPU] both
    normalise to [cpu]; with an empty alias table the output has one
    key, the value of [%CPU] being overwritten. *)
Lemma map_columns_collision_counterexample :
  ~ (forall (row : dict) (m : alias_table), NoDup (map fst row) ->
       List.length (map_columns_to_fields row m) = List.length row /\
       (forall k v, In (k, v) row ->
        dict_get (field_name_for m k) (map_columns_to_fields row m) = Some v)).
Proof.
  intro H. destruct (H [("%CPU", "1"); ("CPU", "2")] []) as [Hlen _].
  - repeat constructor; simpl; intuition discriminate.
  - vm_compute in Hlen. discriminate.
Qed.

(** C3 (amended): every column of the row yields a key of the output,
    the alias target of its name, else of its normalised name, else the
    normalised name; the output has exactly these keys; a column's value
    is the one stored under its key unless a later column yields the same
    key; when the keys are pairwise distinct the output has one key per
    column, in row order, each with its column's value; when two columns
    yield the same key, the output has fewer keys than the row. *)
Theorem map_columns_keys (row : dict) (m : alias_table) :
  (forall k v, In (k, v) row ->
   exists v', dict_get (field_name_for m k) (map_columns_to_fields row m) = Some v') /\
  (forall k, In k (map fst (map_columns_to_fields row m)) <->
             In k (map (field_name_for m) (map fst row))) /\
  (forall pre k v post, row = pre ++ (k, v) :: post ->
   (forall kv, In kv post -> field_name_for m (fst kv) <> field_name_for m k) ->
   dict_get (field_name_for m k) (map_columns_to_fields row m) = Some v) /\
  (NoDup (map (field_name_for m) (map fst row)) ->
   map_columns_to_fields row m = map (fun kv => (field_name_for m (fst kv), snd kv)) row) /\
  (~ NoDup (map (field_name_for m) (map fst row)) ->
   List.length (map_columns_to_fields row m) < List.length row).
Proof.
  set (l := map (fun kv => (field_name_for m (fst kv), snd kv)) row).
  assert (Hl : map fst l = map (field_name_for m) (map fst row))
    by (unfold l; now rewrite !map_map).
  destruct (fold_dict_set_keys l []) as [K1 K2].
  change (fold_left _ l []) with (dict_of_assignments l) in K1, K2.
  assert (Hk : forall k, In k (map fst (map_columns_to_fields row m)) <->
                         In k (map (field_name_for m) (map fst row))).
  { intro k. unfold map_columns_to_fields. fold l. rewrite K1, Hl. cbn. tauto. }
  split; [|split; [exact Hk|split; [|split]]].
  - intros k v H. unfold map_columns_to_fields. rewrite dict_get_assignments.
    apply last_assigned_in with v.
    apply (in_map (fun kv => (field_name_for m (fst kv), snd kv))) in H. exact H.
  - intros pre k v post E Hpost. unfold map_columns_to_fields. fold l.
    rewrite dict_get_assignments. unfold l. rewrite E, map_app.
    rewrite last_assigned_app. cbn [map]. cbn [last_assigned fold_left fst snd].
    rewrite String.eqb_refl. fold (last_assigned (field_name_for m k)
      (map (fun kv => (field_name_for m (fst kv), snd kv)) post)
      (Some v)).
    apply last_assigned_none. intros kv Hkv.
    apply in_map_iff in Hkv as [kv' [<- Hin]]. exact (Hpost kv' Hin).
  - intro Hn. apply assignments_nodup. fold l. rewrite Hl. exact Hn.
  - intros Hnd. unfold map_columns_to_fields. fold l.
    destruct (Nat.lt_ge_cases (List.length (dict_of_assignments l)) (List.length row))
      as [Lt|Ge]; [exact Lt|].
    exfalso. apply Hnd. rewrite <- Hl.
    apply NoDup_incl_NoDup with (l := map fst (dict_of_assignments l)).
    + apply K2. constructor.
    + unfold l. rewrite !length_map. exact Ge.
    + intros k Hin. apply K1 in Hin. cbn in Hin. tauto.
Qed.

Lemma map_columns_keys_witness :
  map_columns_to_fields [("PID", "123"); ("UNKNOWN_COLUMN", "value")] [("PID", "pid")]
  = [("pid", "123"); ("unknown_column", "value")] /\
  dict_get "cpu" (map_columns_to_fields [("%CPU", "1"); ("CPU", "2")] []) = Some "2" /\
  List.length (map_columns_to_fields [("%CPU", "1"); ("CPU", "2")] []) < 2.
Proof.
  split; [|split].
  - rewrite (proj1 (proj2 (proj2 (proj2 (map_columns_keys [("PID", "123"); ("UNKNOWN_COLUMN", "value")]
                    [("PID", "pid")]))))).
    + vm_compute. reflexivity.
    + vm_compute. repeat constructor; simpl; intuition discriminate.
  - exact (proj1 (proj2 (proj2 (map_columns_keys [("%CPU", "1"); ("CPU", "2")] [])))
             [("%CPU", "1")] "CPU" "2" [] eq_refl
             (fun kv (H : In kv []) => match H with end)).
  - apply (proj2 (proj2 (proj2 (proj2 (map_columns_keys [("%CPU", "1"); ("CPU", "2")] []))))).
    vm_compute. intros H. inversion H as [|? ? Hn _]. apply Hn. left. reflexivity.
Defined.

(* ------------------------------------------------------------------ *)
(** ** Column name normalisation *)

Lemma alnum_not_underscore c : is_alnum c = true -> Ascii.eqb c "_"%char = false.
Proof.
  intro H. destruct (Ascii.eqb_spec c "_"%char) as [E|E]; [|reflexivity].
  subst c. discriminate H.
Qed.

(** Replacing each non-alphanumeric character by [_] and then collapsing
    runs of [_] replaces each run of non-alphanumerics by one [_]. *)
Lemma collapse_replace s : forall b,
  collapse_underscores b (replace_non_alnum s) = replace_runs b s.
Proof.
  induction s as [|c r IH]; intro b; simpl; [reflexivity|].
  destruct (is_alnum c) eqn:A.
  - rewrite (alnum_not_underscore _ A). rewrite <- IH. reflexivity.
  - simpl. destruct b; rewrite <- IH; reflexivity.
Qed.

(** C7 (as stated, refuted): ["%"] lowercases to ["%"], whose one
    non-alphanumeric run becomes ["_"], stripped to [""]; the code
    returns the lowercased name ["%"] when normalisation is empty. *)
Lemma normalize_empty_counterexample :
  ~ (forall name, normalize_column_name name = spec_normalize name).
Proof.
  intro H. specialize (H "%"). vm_compute in H. discriminate H.
Qed.

(** C7 (amended): normalisation lowercases, replaces each run of
    non-alphanumeric characters by one underscore and strips underscores,
    unless that leaves the empty string, in which case it is the
    lowercased raw name; ["%CPU"] gives ["cpu"], ["USER-NAME"] gives
    ["user_name"], and an unmapped ["UNKNOWN_COLUMN"] is output under
    ["unknown_column"] with its value. *)
Theorem normalize_column_name_rule :
  (forall name, normalize_column_name name =
     if String.eqb (spec_normalize name) "" then lower name else spec_normalize name) /\
  normalize_column_name "%CPU" = "cpu" /\
  normalize_column_name "USER-NAME" = "user_name" /\
  (forall (m : alias_table) (v : string),
   truthy (dict_get "UNKNOWN_COLUMN" m) = None ->
   truthy (dict_get "unknown_column" m) = None ->
   map_columns_to_fields [("UNKNOWN_COLUMN", v)] m = [("unknown_column", v)]).
Proof.
  split; [|split; [|split]].
  - intro name. unfold normalize_column_name, spec_normalize.
    rewrite collapse_replace. reflexivity.
  - vm_compute. reflexivity.
  - vm_compute. reflexivity.
  - intros m v H1 H2.
    assert (E : normalize_column_name "UNKNOWN_COLUMN" = "unknown_column")
      by (vm_compute; reflexivity).
    unfold map_columns_to_fields, dict_of_assignments.
    cbn [map fst snd fold_left]. unfold field_name_for.
    rewrite H1, E, H2. reflexivity.
Qed.

Lemma normalize_column_name_rule_witness :
  map_columns_to_fields [("UNKNOWN_COLUMN", "value")] [("PID", "pid")]
  = [("unknown_column", "value")].
Proof.
  apply (proj2 (proj2 (proj2 normalize_column_name_rule))); vm_compute; reflexivity.
Defined.

(* ------------------------------------------------------------------ *)
(** ** Header detection *)

Lemma ascii_lower_upper c : ascii_lower (ascii_upper c) = ascii_lower c.
Proof. destruct c as [[] [] [] [] [] [] [] []]; reflexivity. Qed.

Lemma ascii_upper_lower c : ascii_upper (ascii_lower c) = ascii_upper c.
Proof. destruct c as [[] [] [] [] [] [] [] []]; reflexivity. Qed.

Lemma str_map_map f g s : str_map f (str_map g s) = str_map (fun c => f (g c)) s.
Proof. induction s as [|c r IH]; simpl; [reflexivity|]. rewrite IH. reflexivity. Qed.

Lemma str_map_ext f g s : (forall c, f c = g c) -> str_map f s = str_map g s.
Proof. intro H. induction s as [|c r IH]; simpl; [reflexivity|]. rewrite H, IH. reflexivity. Qed.

Lemma lower_upper s : lower (upper s) = lower s.
Proof. unfold lower, upper. rewrite str_map_map. apply str_map_ext, ascii_lower_upper. Qed.

Lemma upper_lower s : upper (lower s) = upper s.
Proof. unfold lower, upper. rewrite str_map_map. apply str_map_ext, ascii_upper_lower. Qed.

(** Membership of [word.upper()] in an upper-case vocabulary is
    case-insensitive membership of [word]. *)
Lemma upper_in_ci w vocab :
  (forall v, In v vocab -> upper v = v) ->
  str_in (upper w) vocab = existsb (eq_ci w) vocab.
Proof.
  unfold str_in, eq_ci. induction vocab as [|v r IH]; intro H; simpl; [reflexivity|].
  rewrite IH by (intros; apply H; right; assumption). f_equal.
  destruct (String.eqb_spec (upper w) v) as [E|E];
    destruct (String.eqb_spec (lower w) (lower v)) as [F|F]; try reflexivity.
  - exfalso. apply F. rewrite <- E, lower_upper. reflexivity.
  - exfalso. apply E. rewrite <- upper_lower, F, upper_lower. apply H. left; reflexivity.
Qed.

Lemma header_indicators_upper v : In v header_indicators -> upper v = v.
Proof. simpl; intro H; repeat destruct H as [<-|H]; try reflexivity; contradiction. Qed.

Lemma filter_length_count {A} (p q : A -> bool) l :
  (forall x, p x = q x) ->
  List.length (filter p l) = count_occ bool_dec (map q l) true.
Proof.
  intro H. induction l as [|x r IH]; simpl; [reflexivity|].
  rewrite H. destruct (q x); simpl; rewrite IH; reflexivity.
Qed.

Lemma header_line_test_spec line : header_line_test line = looks_like_header line.
Proof.
  unfold header_line_test, looks_like_header.
  destruct (String.eqb (strip line) ""), (String.prefix "#" (strip line)),
    (String.prefix "//" (strip line)); simpl; try reflexivity.
  rewrite (filter_length_count _ (fun w => existsb (eq_ci w) header_indicators)).
  - destruct (2 <=? List.length (split (strip line))); reflexivity.
  - intro w. exact (upper_in_ci w header_indicators header_indicators_upper).
Qed.

Lemma detect_header_line_from_S j lines :
  detect_header_line_from (S j) lines = option_map S (detect_header_line_from j lines).
Proof.
  revert j; induction lines as [|l r IH]; intro j; simpl; [reflexivity|].
  destruct (header_line_test l); [reflexivity|apply IH].
Qed.

(** C4: [detect_header_line] returns the index of the first line that,
    trimmed, is neither blank nor starts with [#] or [//] and has at
    least two whitespace tokens of which at least two are vocabulary
    words up to case; it returns [None] exactly when no line does. *)
Theorem detect_header_line_first (lines : list string) :
  (forall i, detect_header_line lines = Some i <->
     (exists l, nth_error lines i = Some l /\ looks_like_header l = true) /\
     (forall j l, j < i -> nth_error lines j = Some l -> looks_like_header l = false)) /\
  (detect_header_line lines = None <->
     (forall l, In l lines -> looks_like_header l = false)).
Proof.
  unfold detect_header_line.
  induction lines as [|a r [IHs IHn]]; simpl.
  - split.
    + intro i; split; [discriminate|]. intros [[l [H _]] _]. destruct i; discriminate.
    + split; [intros _ l []|reflexivity].
  - rewrite header_line_test_spec, detect_header_line_from_S.
    destruct (looks_like_header a) eqn:E; split.
    + intro i; split.
      * intro H; inversion H; subst. split; [exists a; split; [reflexivity|exact E]|].
        intros j l Hj; lia.
      * intros [_ H]. destruct i as [|i]; [reflexivity|].
        rewrite (H 0 a ltac:(lia) eq_refl) in E. discriminate.
    + split; [discriminate|]. intro H. rewrite (H a (or_introl eq_refl)) in E. discriminate.
    + intro i. destruct i as [|i].
      * split; [destruct (detect_header_line_from 0 r); discriminate|].
        intros [[l [H1 H2]] _]. simpl in H1. inversion H1; subst. congruence.
      * split.
        -- intro H.
           assert (Hr : detect_header_line_from 0 r = Some i)
             by (destruct (detect_header_line_from 0 r); simpl in H;
                 inversion H; reflexivity).
           apply IHs in Hr as [[l [H1 H2]] H3].
           split; [exists l; split; assumption|].
           intros j l' Hj Hl'. destruct j as [|j].
           ++ simpl in Hl'. inversion Hl'; subst. exact E.
           ++ apply (H3 j); [lia|exact Hl'].
        -- intros [[l [H1 H2]] H3].
           assert (Hr : detect_header_line_from 0 r = Some i).
           { apply IHs. split; [exists l; split; assumption|].
             intros j l' Hj Hl'. apply (H3 (S j)); [lia|exact Hl']. }
           rewrite Hr. reflexivity.
    + split.
      * intro H. destruct (detect_header_line_from 0 r) eqn:F; [discriminate|].
        intros l [<-|Hl]; [exact E|]. apply IHn; [reflexivity|exact Hl].
      * intro H. rewrite (proj2 IHn); [reflexivity|]. intros l Hl. apply H. right; exact Hl.
Qed.

Lemma detect_header_line_first_witness :
  (exists l, nth_error ["";"# PID USER";"  pid tty time cmd";"1 pts/0 0:00 bash"] 2 = Some l
             /\ looks_like_header l = true) /\
  (forall j l, j < 2 ->
     nth_error ["";"# PID USER";"  pid tty time cmd";"1 pts/0 0:00 bash"] j = Some l ->
     looks_like_header l = false).
Proof.
  apply (proj1 (detect_header_line_first
                  ["";"# PID USER";"  pid tty time cmd";"1 pts/0 0:00 bash"]) 2).
  vm_compute. reflexivity.
Defined.

(* ------------------------------------------------------------------ *)
(** ** Table parsing without a header *)

(** C5: when no line (after the skipped ones) qualifies as a header,
    [parse_table_output] returns the empty list. *)
Theorem parse_table_output_no_header (lines : list string) (skip_lines : nat) :
  detect_header_line (skipn skip_lines lines) = None ->
  parse_table_output lines skip_lines = [].
Proof.
  intro H. unfold parse_table_output.
  destruct (0 <? skip_lines) eqn:E.
  - rewrite H. reflexivity.
  - apply Nat.ltb_ge in E. assert (skip_lines = 0) as -> by lia.
    simpl in H. rewrite H. reflexivity.
Qed.

Lemma parse_table_output_no_header_witness :
  detect_header_line ["root 1 /sbin/init"; "daemon 2 /usr/sbin/cron"] = None /\
  parse_table_output ["root 1 /sbin/init"; "daemon 2 /usr/sbin/cron"] 0 = [].
Proof.
  split; [vm_compute; reflexivity|].
  apply parse_table_output_no_header. vm_compute. reflexivity.
Defined.

(* ------------------------------------------------------------------ *)
(** ** [Counter.most_common(1)]: the first-encountered most frequent value *)

Lemma existsb_eqb_in x l : existsb (Nat.eqb x) l = true <-> In x l.
Proof.
  rewrite existsb_exists. split.
  - intros [y [Hy E]]. apply Nat.eqb_eq in E. subst. exact Hy.
  - intro H. exists x. split; [exact H|apply Nat.eqb_refl].
Qed.

Lemma first_occurrences_snoc l x :
  first_occurrences (l ++ [x]) =
  if existsb (Nat.eqb x) (first_occurrences l) then first_occurrences l
  else first_occurrences l ++ [x].
Proof. unfold first_occurrences. rewrite fold_left_app. reflexivity. Qed.

Lemma first_occurrences_in l : forall k, In k (first_occurrences l) <-> In k l.
Proof.
  induction l as [|x l IH] using rev_ind; intro k; [simpl; tauto|].
  rewrite first_occurrences_snoc, in_app_iff. simpl.
  destruct (existsb (Nat.eqb x) (first_occurrences l)) eqn:E.
  - apply existsb_eqb_in, IH in E. rewrite IH. split; [tauto|].
    intros [H|[<-|[]]]; assumption.
  - rewrite in_app_iff, IH. simpl. tauto.
Qed.

Lemma first_occurrences_nodup l : NoDup (first_occurrences l).
Proof.
  induction l as [|x l IH] using rev_ind; [constructor|].
  rewrite first_occurrences_snoc.
  destruct (existsb (Nat.eqb x) (first_occurrences l)) eqn:E; [exact IH|].
  apply NoDup_app; [exact IH|repeat constructor; simpl; tauto|].
  intros a Ha [<-|[]]. apply existsb_eqb_in in Ha. congruence.
Qed.

Lemma counter_snoc l x : counter (l ++ [x]) = counter_add x (counter l).
Proof. unfold counter. rewrite fold_left_app. reflexivity. Qed.

Lemma counter_add_map (f : nat -> nat) x ks :
  NoDup ks ->
  counter_add x (map (fun k => (k, f k)) ks) =
  if existsb (Nat.eqb x) ks
  then map (fun k => (k, if Nat.eqb k x then S (f k) else f k)) ks
  else map (fun k => (k, f k)) ks ++ [(x, 1)].
Proof.
  induction ks as [|k r IH]; intro Hn; simpl; [reflexivity|].
  inversion Hn as [|? ? Hk Hr]; subst.
  rewrite (Nat.eqb_sym x k).
  destruct (Nat.eqb k x) eqn:E; simpl.
  - apply Nat.eqb_eq in E; subst k. f_equal.
    apply map_ext_in. intros k' Hk'.
    destruct (Nat.eqb_spec k' x); [subst; contradiction|reflexivity].
  - rewrite (IH Hr). destruct (existsb (Nat.eqb x) r); reflexivity.
Qed.

(** [Counter(l)] lists each distinct value once, in order of first
    occurrence, with its number of occurrences. *)
Lemma counter_spec l :
  counter l = map (fun k => (k, count_occ Nat.eq_dec l k)) (first_occurrences l).
Proof.
  induction l as [|x l IH] using rev_ind; [reflexivity|].
  rewrite counter_snoc, IH, (counter_add_map _ _ _ (first_occurrences_nodup l)),
    first_occurrences_snoc.
  destruct (existsb (Nat.eqb x) (first_occurrences l)) eqn:E.
  - apply map_ext_in. intros k _. f_equal.
    rewrite count_occ_app. simpl.
    destruct (Nat.eqb_spec k x), (Nat.eq_dec x k); subst; try congruence; lia.
  - rewrite map_app. simpl. f_equal.
    + apply map_ext_in. intros k Hk. f_equal.
      rewrite count_occ_app. simpl.
      destruct (Nat.eq_dec x k); [|lia]. subst.
      apply (existsb_eqb_in k) in Hk. congruence.
    + f_equal. f_equal. rewrite count_occ_app. simpl.
      destruct (Nat.eq_dec x x); [|congruence].
      assert (Hx : ~ In x l).
      { intro H. apply first_occurrences_in, existsb_eqb_in in H. congruence. }
      apply (count_occ_not_In Nat.eq_dec) in Hx. lia.
Qed.

Lemma find_app {A} (p : A -> bool) l1 l2 :
  find p (l1 ++ l2) = match find p l1 with Some y => Some y | None => find p l2 end.
Proof.
  induction l1 as [|x r IH]; simpl; [reflexivity|].
  destruct (p x); [reflexivity|exact IH].
Qed.

Lemma find_first_occurrences (p : nat -> bool) l :
  find p (first_occurrences l) = find p l.
Proof.
  induction l as [|x l IH] using rev_ind; [reflexivity|].
  rewrite first_occurrences_snoc, find_app.
  destruct (existsb (Nat.eqb x) (first_occurrences l)) eqn:E.
  - rewrite IH. destruct (find p l) eqn:F; [reflexivity|].
    apply existsb_eqb_in, (proj1 (first_occurrences_in l x)) in E.
    simpl. rewrite (find_none p l F x E). reflexivity.
  - rewrite find_app, IH. reflexivity.
Qed.

Lemma find_map {A B} (g : A -> B) (q : B -> bool) l :
  find q (map g l) = option_map g (find (fun x => q (g x)) l).
Proof.
  induction l as [|x r IH]; simpl; [reflexivity|].
  destruct (q (g x)); [reflexivity|exact IH].
Qed.

Lemma find_cons {A} (p : A -> bool) a l :
  find p (a :: l) = if p a then Some a else find p l.
Proof. reflexivity. Qed.

Lemma list_max_snd_cons (a : nat * nat) l :
  list_max (map snd (a :: l)) = Nat.max (snd a) (list_max (map snd l)).
Proof. reflexivity. Qed.

(** [max(items, key=count)] is the first item of maximal count. *)
Lemma max_by_count_find r : forall best,
  find (fun p => Nat.eqb (snd p) (list_max (map snd (best :: r)))) (best :: r)
  = Some (max_by_count best r).
Proof.
  induction r as [|x r IH]; intro best.
  - simpl. rewrite Nat.max_0_r, Nat.eqb_refl. reflexivity.
  - cbn [max_by_count]. rewrite !list_max_snd_cons.
    set (M := list_max (map snd r)).
    destruct (Nat.ltb_spec (snd best) (snd x)) as [Hlt|Hge].
    + replace (Nat.max (snd best) (Nat.max (snd x) M)) with (Nat.max (snd x) M) by lia.
      rewrite find_cons.
      replace (Nat.eqb (snd best) (Nat.max (snd x) M)) with false
        by (symmetry; apply Nat.eqb_neq; lia).
      rewrite <- IH, list_max_snd_cons. reflexivity.
    + replace (Nat.max (snd best) (Nat.max (snd x) M)) with (Nat.max (snd best) M) by lia.
      rewrite <- IH, list_max_snd_cons. fold M. rewrite !find_cons.
      destruct (Nat.eqb_spec (snd best) (Nat.max (snd best) M)) as [E|E]; [reflexivity|].
      replace (Nat.eqb (snd x) (Nat.max (snd best) M)) with false
        by (symmetry; apply Nat.eqb_neq; lia).
      reflexivity.
Qed.

Lemma list_max_in_le y l : In y l -> y <= list_max l.
Proof.
  intro H. assert (Hf : Forall (fun k => k <= list_max l) l)
    by (apply list_max_le; lia).
  rewrite Forall_forall in Hf. apply Hf, H.
Qed.

Lemma list_max_same (f : nat -> nat) a b :
  (forall x, In x a <-> In x b) -> list_max (map f a) = list_max (map f b).
Proof.
  intro H. apply Nat.le_antisymm; apply list_max_le, Forall_forall;
    intros y Hy; apply in_map_iff in Hy as [x [<- Hx]];
    apply list_max_in_le, in_map, H, Hx.
Qed.

(** [Counter(l).most_common(1)[0][0]] is the first value of [l], in
    order of occurrence, among those of maximal count. *)
Lemma most_common_first l : most_common_1 l = first_most_frequent l.
Proof.
  unfold most_common_1, first_most_frequent, max_count.
  rewrite counter_spec, <- (find_first_occurrences _ l).
  rewrite (list_max_same (count_occ Nat.eq_dec l) l (first_occurrences l))
    by (intro x; symmetry; apply first_occurrences_in).
  destruct (first_occurrences l) as [|k ks]; [reflexivity|].
  pose proof (max_by_count_find (map (fun k => (k, count_occ Nat.eq_dec l k)) ks)
                (k, count_occ Nat.eq_dec l k)) as H.
  change ((k, count_occ Nat.eq_dec l k) :: map (fun k => (k, count_occ Nat.eq_dec l k)) ks)
    with (map (fun k => (k, count_occ Nat.eq_dec l k)) (k :: ks)) in H.
  rewrite find_map, map_map in H. cbn [snd] in H.
  destruct (find (fun x => Nat.eqb (count_occ Nat.eq_dec l x)
                     (list_max (map (count_occ Nat.eq_dec l) (k :: ks)))) (k :: ks))
    as [y|] eqn:F.
  - cbn [map]. cbn [option_map] in H. injection H as H.
    rewrite <- H. reflexivity.
  - discriminate H.
Qed.

(** C8: column inference and the whole pipeline are functions of their
    input (building them twice on the same lines gives the same result),
    and with sample lines each column starts at the most frequent start
    offset observed for it, ties going to the offset met first. *)
Theorem inference_deterministic :
  (forall (header : string) (samples : list string),
     parse_header_smart header samples = parse_header_smart header samples) /\
  (forall (lines : list string) (skip_lines : nat) (m : alias_table),
     pipeline lines skip_lines m = pipeline lines skip_lines m) /\
  (forall (samples : list string) (header_words : list token) (i : nat)
          (hw : token) (c : column),
     nth_error header_words i = Some hw ->
     nth_error (analyze_with_sample_data samples header_words) i = Some c ->
     col_start c =
       match first_most_frequent (starts_at i (map finditer_nonspace samples)) with
       | Some s => s
       | None => tok_start hw
       end).
Proof.
  split; [reflexivity|split; [reflexivity|]].
  intros samples header_words i hw c Hhw Hc.
  unfold analyze_with_sample_data, imap in Hc.
  rewrite imap_from_nth_error, Nat.add_0_l, Hhw in Hc.
  cbn [option_map] in Hc. injection Hc as <-.
  unfold mk_col. cbn [col_start]. rewrite most_common_first. reflexivity.
Qed.

Lemma inference_deterministic_witness :
  col_start (mk_column "PID" 2 (Some 6) (Some 4%Z)) = 2 /\
  first_most_frequent [2; 3; 3; 2] = Some 2.
Proof.
  split.
  - apply (proj2 (proj2 inference_deterministic)
             ["  1   x"; "   22 y"; "   33 z"; "  4   w"]
             (finditer_nonspace "PID USER") 0 (mk_token "PID" 0 3)
             (mk_column "PID" 2 (Some 6) (Some 4%Z))); vm_compute; reflexivity.
  - vm_compute. reflexivity.
Defined.

Example args_ex : parse_command_arguments "pslist" "pslist_-u_username_-d.txt"
  = Some ["-u"; "username"; "-d"].
Proof. reflexivity. Qed.
Example lsof_ex : map (fun r => (lsof_pid r, lsof_name r))
  (lsof_parse_command_output
     ["COMMAND PID USER FD TYPE DEVICE SIZE/OFF NODE NAME";
      "sshd 1234 root 3u IPv4 12345 0t0 TCP *:22 (LISTEN)";
      "# c"; "short line"; "bash 1_0 root cwd DIR 8,1 4096 2 /root"] "f")
  = [(1234%Z, "TCP *:22 (LISTEN)"); (10%Z, "/root")].
Proof. reflexivity. Qed.
Example int_ex : map python_int [" 12 "; "-3"; "1__0"; "_1"; "1_"; "+07"; "x"]
  = [Some 12%Z; Some (-3)%Z; None; None; None; Some 7%Z; None].
Proof. reflexivity. Qed.

(* ------------------------------------------------------------------ *)
(** ** Argument files *)

Lemma collect_arguments_id_le n : forall parts, List.length parts <= n ->
  collect_arguments parts = parts.
Proof.
  induction n as [|n IH]; intros parts Hl.
  - destruct parts; [reflexivity | cbn in Hl; lia].
  - destruct parts as [|a rest]; [reflexivity|].
    cbn in Hl. cbn [collect_arguments].
    destruct (String.prefix "-" a).
    + destruct rest as [|b rest']; [reflexivity|].
      cbn in Hl.
      destruct (negb (String.prefix "-" b)).
      * rewrite (IH rest'); [reflexivity | lia].
      * rewrite (IH (b :: rest')); [reflexivity | cbn; lia].
    + rewrite (IH rest); [reflexivity | lia].
Qed.

Lemma collect_arguments_id parts : collect_arguments parts = parts.
Proof. apply (collect_arguments_id_le (List.length parts)); lia. Qed.

Lemma prefix_append s1 s2 : String.prefix s1 (String.append s1 s2) = true.
Proof.
  induction s1 as [|c s1 IH]; [destruct s2; reflexivity|].
  cbn. destruct (ascii_dec c c) as [_|n]; [exact IH | congruence].
Qed.

Lemma substring_long s m : String.length s <= m -> substring 0 m s = s.
Proof.
  revert m. induction s as [|c s IH]; intros m Hm; [destruct m; reflexivity|].
  destruct m as [|m]; cbn in Hm; [lia|]. cbn. rewrite IH by lia. reflexivity.
Qed.

Lemma length_append s1 s2 :
  String.length (String.append s1 s2) = String.length s1 + String.length s2.
Proof. induction s1; cbn; congruence. Qed.

Lemma substring_after s1 s2 :
  substring (String.length s1) (String.length (String.append s1 s2))
    (String.append s1 s2) = s2.
Proof.
  assert (G : forall m, String.length s2 <= m ->
            substring (String.length s1) m (String.append s1 s2) = s2).
  { induction s1 as [|c s1 IH]; intros m Hm; cbn; [now apply substring_long | now apply IH]. }
  apply G. rewrite length_append. lia.
Qed.

Lemma before_last_none sep e :
  ~ In sep (list_ascii_of_string e) -> before_last sep e = None.
Proof.
  induction e as [|c e IH]; intros H; [reflexivity|].
  cbn in H |- *. rewrite IH by tauto.
  destruct (Ascii.eqb_spec c sep); [subst; tauto | reflexivity].
Qed.

Lemma before_last_append sep a e :
  ~ In sep (list_ascii_of_string e) ->
  before_last sep (String.append a (String sep e)) = Some a.
Proof.
  intros H. induction a as [|c a IH]; cbn.
  - rewrite before_last_none by exact H. now rewrite Ascii.eqb_refl.
  - now rewrite IH.
Qed.

Lemma append_empty_r s : String.append s "" = s.
Proof. induction s; cbn; congruence. Qed.

Lemma split_on_nonempty sep r : split_on sep r <> [].
Proof.
  destruct r as [|c r]; cbn; [discriminate|].
  destruct (Ascii.eqb c sep); [discriminate|]. destruct (split_on sep r); discriminate.
Qed.

Lemma split_on_join sep args :
  args <> [] -> Forall (fun a => ~ In sep (list_ascii_of_string a)) args ->
  split_on sep (join (String sep "") args) = args.
Proof.
  intros Hne Hf. induction Hf as [|a args Ha Hf IH]; [congruence|].
  assert (Hpre : forall r, split_on sep (String.append a r) =
    match split_on sep r with p :: ps => String.append a p :: ps | [] => [a] end).
  { clear - Ha. induction a as [|c a IHa]; intros r.
    - cbn [String.append]. destruct (split_on sep r) eqn:E; [now destruct (split_on_nonempty sep r) | reflexivity].
    - cbn in Ha |- *. rewrite IHa by tauto.
      destruct (Ascii.eqb_spec c sep); [subst; tauto|].
      destruct (split_on sep r) eqn:E; [now destruct (split_on_nonempty sep r) | reflexivity]. }
  destruct args as [|b args'].
  - cbn. specialize (Hpre ""). rewrite append_empty_r in Hpre.
    rewrite Hpre. cbn. now rewrite append_empty_r.
  - change (join (String sep "") (a :: b :: args'))
      with (String.append a (String.append (String sep "") (join (String sep "") (b :: args')))).
    rewrite Hpre. cbn [String.append split_on]. rewrite Ascii.eqb_refl.
    rewrite IH by discriminate. now rewrite append_empty_r.
Qed.

Lemma join_nonempty sep args :
  args <> [] -> args <> [""] -> join (String sep "") args <> "".
Proof.
  destruct args as [|a [|b r]]; intros H1 H2; [congruence| |].
  - cbn. intros ->. congruence.
  - cbn. destruct a; discriminate.
Qed.

(** X1: the file naming scheme [commandname_arg1_arg2.ext] is decoded
    back to the argument list: pairing an option with its value never
    drops, repeats or reorders a part. *)
Theorem parse_command_arguments_roundtrip (command_name ext : string) (args : list string)
  (Hargs : Forall (fun a => ~ In "_"%char (list_ascii_of_string a)
                            /\ ~ In "."%char (list_ascii_of_string a)) args)
  (Hsingle : args <> [""])
  (Hext : ~ In "."%char (list_ascii_of_string ext)) :
  parse_command_arguments command_name
    (String.append command_name
       (String "_" (String.append (join "_" args) (String "." ext))))
  = Some args.
Proof.
  unfold parse_command_arguments. rewrite prefix_append. cbn [negb].
  rewrite substring_after. unfold rsplit1_head.
  change (String "_" (String.append (join "_" args) (String "." ext)))
    with (String.append (String "_" (join "_" args)) (String "." ext)).
  rewrite before_last_append by exact Hext.
  change (String "_" (join "_" args)) with (String.append "_" (join "_" args)).
  rewrite prefix_append. cbn [String.append substring String.length].
  rewrite substring_long by lia.
  destruct args as [|a r]; [reflexivity|].
  destruct (String.eqb_spec (join "_" (a :: r)) "") as [E|_].
  - exfalso. exact (join_nonempty "_" (a :: r) ltac:(discriminate) Hsingle E).
  - rewrite collect_arguments_id. f_equal. apply split_on_join; [discriminate|].
    eapply Forall_impl; [|exact Hargs]. cbn. tauto.
Qed.

Lemma parse_command_arguments_roundtrip_witness :
  parse_command_arguments "ps" "ps_-u_root_aux.txt" = Some ["-u"; "root"; "aux"].
Proof.
  apply (parse_command_arguments_roundtrip "ps" "txt" ["-u"; "root"; "aux"]).
  - repeat constructor; cbn; intuition discriminate.
  - discriminate.
  - cbn; intuition discriminate.
Defined.

(* ------------------------------------------------------------------ *)
(** ** lsof lines *)

Lemma ascii_upper_idem c : ascii_upper (ascii_upper c) = ascii_upper c.
Proof. destruct c as [[] [] [] [] [] [] [] []]; reflexivity. Qed.

Lemma upper_idem s : upper (upper s) = upper s.
Proof. unfold upper. rewrite str_map_map. apply str_map_ext, ascii_upper_idem. Qed.

Lemma upper_not_IPv s : (upper s =? "IPv4")%string = false /\ (upper s =? "IPv6")%string = false.
Proof.
  split; apply String.eqb_neq; intros E;
    pose proof (f_equal upper E) as E'; rewrite upper_idem, E in E'; discriminate.
Qed.

Lemma lsof_protocol_test node :
  negb (String.eqb node "") && str_in (upper node) lsof_protocols
  = str_in (upper node) ["TCP"; "UDP"; "UNIX"].
Proof.
  destruct (String.eqb_spec node "") as [->|_]; [reflexivity|].
  unfold str_in, lsof_protocols. cbn [negb andb existsb].
  destruct (upper_not_IPv node) as [-> ->]. now rewrite !orb_false_r.
Qed.

(** X2: for a line of more than eight fields, the name is the fields
    from the ninth on joined by spaces, prefixed with the node field
    exactly when the node upper-cased is TCP, UDP or UNIX: a node such as
    [IPv4] or [IPv6] is never prefixed, since [node.upper()] is compared
    with the mixed-case entries of the protocol list. *)
Theorem parse_lsof_line_name (line : string) (Hlen : 8 < List.length (split line)) :
  dict_get "name" (parse_lsof_line line) =
  Some (let node := nth 7 (split line) "" in
        let base_name := join " " (skipn 8 (split line)) in
        if str_in (upper node) ["TCP"; "UDP"; "UNIX"]
        then String.append node (String.append " " base_name) else base_name).
Proof.
  unfold parse_lsof_line.
  replace (List.length (split line) <? 8) with false by (symmetry; apply Nat.ltb_ge; lia).
  replace (7 <? List.length (split line)) with true by (symmetry; apply Nat.ltb_lt; lia).
  replace (8 <? List.length (split line)) with true by (symmetry; apply Nat.ltb_lt; lia).
  cbn -[str_in upper join skipn nth]. now rewrite lsof_protocol_test.
Qed.

Lemma parse_lsof_line_name_witness :
  8 < List.length (split "java 77 app 12u IPv6 0x1 0t0 TCP [::1]:8080") /\
  dict_get "name" (parse_lsof_line "java 77 app 12u IPv6 0x1 0t0 TCP [::1]:8080")
  = Some "TCP [::1]:8080".
Proof.
  split; [vm_compute; lia|].
  exact (parse_lsof_line_name "java 77 app 12u IPv6 0x1 0t0 TCP [::1]:8080"
           ltac:(vm_compute; lia)).
Defined.

Lemma parse_lsof_line_empty line :
  parse_lsof_line line = [] <-> List.length (split line) < 8.
Proof.
  unfold parse_lsof_line. destruct (Nat.ltb_spec (List.length (split line)) 8).
  - tauto.
  - split; [discriminate | lia].
Qed.

Lemma parse_lsof_line_get line k :
  8 <= List.length (split line) ->
  In k ["command"; "pid"] ->
  get_or k "" (parse_lsof_line line) = nth (if String.eqb k "command" then 0 else 1) (split line) "".
Proof.
  intros H Hk. unfold parse_lsof_line.
  replace (List.length (split line) <? 8) with false by (symmetry; apply Nat.ltb_ge; lia).
  destruct Hk as [<-|[<-|[]]]; reflexivity.
Qed.

Definition lsof_keeps (l : string) : bool :=
  negb (String.eqb l "") && negb (String.prefix "#" l) && (8 <=? List.length (split l)).

Lemma lsof_records_spec sf lines :
  map lsof_raw_data (lsof_records sf lines) = filter lsof_keeps (map strip lines) /\
  Forall (fun r => lsof_source_file r = sf /\
                   lsof_command r = nth 0 (split (lsof_raw_data r)) "" /\
                   lsof_pid r = safe_int (nth 1 (split (lsof_raw_data r)) ""))
         (lsof_records sf lines).
Proof.
  induction lines as [|l ls [IH1 IH2]]; [split; [reflexivity | constructor]|].
  cbn [lsof_records map filter]. unfold lsof_keeps at 1.
  destruct (String.eqb (strip l) "" || String.prefix "#" (strip l)) eqn:E.
  - apply orb_true_iff in E.
    replace (negb (strip l =? "")%string && negb (String.prefix "#" (strip l))) with false
      by (destruct E as [-> | ->]; [reflexivity | now rewrite andb_false_r]).
    split; [exact IH1 | exact IH2].
  - apply orb_false_iff in E. destruct E as [E1 E2]. rewrite E1, E2. cbn [negb andb].
    destruct (Nat.leb_spec 8 (List.length (split (strip l)))) as [Hl|Hl].
    + destruct (parse_lsof_line (strip l)) eqn:P.
      { apply parse_lsof_line_empty in P. lia. }
      rewrite <- P. cbn [map]. split; [now rewrite IH1|].
      constructor; [|exact IH2]. cbn.
      rewrite (parse_lsof_line_get _ "command"), (parse_lsof_line_get _ "pid")
        by (auto; cbn; tauto).
      auto.
    + assert (P : parse_lsof_line (strip l) = []) by (apply parse_lsof_line_empty; lia).
      rewrite P. split; [exact IH1 | exact IH2].
Qed.

(** X3: the lsof output parser yields one record per line after the
    header that, once stripped, is non-empty, does not start with [#] and
    has at least eight fields, in order, with that stripped line as its
    raw data; every record carries the given source file, the first field
    as its command and [safe_int] of the second field as its pid; without a
    header line there is no record. *)
Theorem lsof_parse_command_output_lines (lines : list string) (source_file : string) :
  map lsof_raw_data (lsof_parse_command_output lines source_file) =
    match detect_header_line lines with
    | None => []
    | Some i => filter lsof_keeps (map strip (skipn (S i) lines))
    end /\
  Forall (fun r => lsof_source_file r = source_file /\
                   lsof_command r = nth 0 (split (lsof_raw_data r)) "" /\
                   lsof_pid r = safe_int (nth 1 (split (lsof_raw_data r)) ""))
         (lsof_parse_command_output lines source_file).
Proof.
  unfold lsof_parse_command_output. destruct lines as [|l ls]; [split; [reflexivity | constructor]|].
  destruct (detect_header_line (l :: ls)) as [i|]; [apply lsof_records_spec|].
  split; [reflexivity | constructor].
Qed.

(* ------------------------------------------------------------------ *)
(** ** Rows of a table *)

Lemma dict_set_nonempty k v d : dict_set k v d <> [].
Proof. destruct d as [|[a b] r]; cbn; [discriminate|]. destruct (String.eqb a k); discriminate. Qed.

Lemma fold_dict_set_nonempty l d :
  l <> [] \/ d <> [] -> fold_left (fun d kv => dict_set (fst kv) (snd kv) d) l d <> [].
Proof.
  revert d; induction l as [|kv l IH]; intros d H; cbn.
  - destruct H; congruence.
  - apply IH. right. apply dict_set_nonempty.
Qed.

Lemma parse_data_line_nonempty columns line :
  columns <> [] -> parse_data_line columns line <> [].
Proof.
  intros Hne. unfold parse_data_line. destruct columns as [|c cs]; [congruence|]. cbv zeta.
  destruct (Nat.eqb_spec (List.length (parse_field_based (c :: cs) (rstrip line)))
                         (List.length (c :: cs))) as [E|_].
  - intros Z. rewrite Z in E. discriminate.
  - unfold parse_positional, dict_of_assignments. apply fold_dict_set_nonempty.
    left. unfold imap. cbn. discriminate.
Qed.

Lemma parse_rows_map columns data :
  columns <> [] ->
  parse_rows columns data
  = map (fun l => parse_data_line columns (strip l))
        (filter (fun l => negb (String.eqb (strip l) "")) data).
Proof.
  intros Hne. induction data as [|l r IH]; [reflexivity|]. cbn [parse_rows filter].
  destruct (String.eqb (strip l) ""); [exact IH|]. cbn [negb map].
  destruct (parse_data_line columns (strip l)) eqn:P.
  - exfalso. exact (parse_data_line_nonempty _ _ Hne P).
  - rewrite <- P, IH. reflexivity.
Qed.

Lemma detect_header_line_from_test j lines i :
  detect_header_line_from j lines = Some i ->
  j <= i /\ header_line_test (nth (i - j) lines "") = true.
Proof.
  revert j; induction lines as [|l r IH]; intros j H; cbn in H; [discriminate|].
  destruct (header_line_test l) eqn:T.
  - inversion H; subst. rewrite Nat.sub_diag. auto.
  - destruct (IH (S j) H) as [Hle Ht]. split; [lia|].
    replace (i - j) with (S (i - S j)) by lia. exact Ht.
Qed.

Lemma header_line_test_words line :
  header_line_test line = true -> 2 <= List.length (split (strip line)).
Proof.
  unfold header_line_test.
  destruct (String.eqb (strip line) "" || String.prefix "#" (strip line)
            || String.prefix "//" (strip line)); [discriminate|].
  destruct (Nat.leb_spec 2 (List.length (split (strip line)))); [auto | discriminate].
Qed.

(** X4: once [parse_table_output] has found a header line (after the
    skipped lines), it returns exactly one row per non-blank line after
    the header, in order (none is dropped, whatever its shape); when the
    header words are pairwise distinct, every row has exactly those words
    as keys, in header order. *)
Theorem parse_table_output_rows (lines : list string) (skip_lines i : nat)
  (Hdet : detect_header_line (skipn skip_lines lines) = Some i) :
  let lines' := skipn skip_lines lines in
  let header_words := split (strip (nth i lines' "")) in
  List.length (parse_table_output lines skip_lines)
    = List.length (filter (fun l => negb (String.eqb (strip l) "")) (skipn (S i) lines')) /\
  (NoDup header_words ->
   Forall (fun row => map fst row = header_words) (parse_table_output lines skip_lines)).
Proof.
  cbv zeta. unfold parse_table_output.
  replace (if 0 <? skip_lines then skipn skip_lines lines else lines)
    with (skipn skip_lines lines) by (destruct skip_lines; reflexivity).
  rewrite Hdet. set (ls := skipn skip_lines lines) in *.
  destruct (detect_header_line_from_test 0 ls i Hdet) as [_ Ht].
  rewrite Nat.sub_0_r in Ht. apply header_line_test_words in Ht.
  set (samples := filter _ _).
  pose proof (parse_header_smart_names (nth i ls "") samples) as Hn.
  set (cols := parse_header_smart (nth i ls "") samples) in *.
  assert (Hne : cols <> []) by (intros E; rewrite E in Hn; cbn in Hn; rewrite <- Hn in Ht; cbn in Ht; lia).
  rewrite (parse_rows_map _ _ Hne). split; [now rewrite length_map|].
  intros Hnd. apply Forall_forall. intros row Hrow.
  apply in_map_iff in Hrow as [l [<- _]].
  rewrite <- Hn in Hnd |- *. rewrite (parse_data_line_field_based _ _ Hne Hnd).
  rewrite (parse_field_based_nodup _ _ Hnd). unfold imap. apply imap_from_map_fst.
Qed.

Lemma parse_table_output_rows_witness :
  detect_header_line (skipn 1 ["junk"; "PID USER COMMAND"; "1 root init"; "  ";
                               "2 root kthreadd extra"]) = Some 0 /\
  List.length (parse_table_output ["junk"; "PID USER COMMAND"; "1 root init"; "  ";
                                   "2 root kthreadd extra"] 1) = 2.
Proof.
  split; [reflexivity|].
  exact (proj1 (parse_table_output_rows ["junk"; "PID USER COMMAND"; "1 root init"; "  ";
                                         "2 root kthreadd extra"] 1 0 eq_refl)).
Defined.

(* ------------------------------------------------------------------ *)
(** ** Normalised column names *)

Lemma ascii_lower_not_upper c : in_range 65 90 (ascii_lower c) = false.
Proof. destruct c as [[] [] [] [] [] [] [] []]; reflexivity. Qed.

Lemma ascii_lower_idem c : ascii_lower (ascii_lower c) = ascii_lower c.
Proof. destruct c as [[] [] [] [] [] [] [] []]; reflexivity. Qed.

Lemma lower_idem s : lower (lower s) = lower s.
Proof. unfold lower. rewrite str_map_map. apply str_map_ext, ascii_lower_idem. Qed.

Lemma replace_runs_lower_clean s : forall b, clean b (replace_runs b (lower s)) = true.
Proof.
  induction s as [|c r IH]; intro b; [reflexivity|]. cbn [lower str_map replace_runs].
  fold (lower r).
  destruct (is_alnum (ascii_lower c)) eqn:A; cbn [clean].
  - rewrite A, ascii_lower_not_upper. apply IH.
  - destruct b; [apply IH|]. cbn [clean]. apply IH.
Qed.

Lemma clean_replace_runs s : forall b, clean b s = true -> replace_runs b s = s.
Proof.
  induction s as [|c r IH]; intros b H; [reflexivity|]. cbn [clean] in H. cbn [replace_runs].
  destruct (is_alnum c).
  - apply andb_prop in H as [_ H]. now rewrite IH.
  - apply andb_prop in H as [H H']. apply andb_prop in H as [E Hb].
    apply Ascii.eqb_eq in E. subst c. destruct b; [discriminate|]. now rewrite IH.
Qed.

Lemma clean_lower s : forall b, clean b s = true -> lower s = s.
Proof.
  induction s as [|c r IH]; intros b H; [reflexivity|]. cbn [clean] in H.
  cbn [lower str_map]. fold (lower r).
  destruct (is_alnum c).
  - apply andb_prop in H as [U H]. rewrite (IH _ H). unfold ascii_lower.
    apply negb_true_iff in U. now rewrite U.
  - apply andb_prop in H as [H H']. apply andb_prop in H as [E _].
    apply Ascii.eqb_eq in E. subst c. now rewrite (IH _ H').
Qed.

Lemma clean_lstrip s : forall b, clean b s = true -> clean false (lstrip_by is_underscore s) = true.
Proof.
  induction s as [|c r IH]; intros b H; [reflexivity|]. cbn [lstrip_by].
  unfold is_underscore at 1. cbn [clean] in H |- *.
  destruct (is_alnum c) eqn:A.
  - rewrite (alnum_not_underscore _ A). cbn [clean]. now rewrite A.
  - apply andb_prop in H as [H H']. apply andb_prop in H as [E _].
    rewrite E. exact (IH _ H').
Qed.

Lemma clean_rstrip p s : forall b, clean b s = true -> clean b (rstrip_by p s) = true.
Proof.
  induction s as [|c r IH]; intros b H; [reflexivity|]. cbn [rstrip_by].
  cbn [clean] in H.
  destruct (is_alnum c) eqn:A.
  - apply andb_prop in H as [U H]. specialize (IH _ H).
    destruct (rstrip_by p r) as [|c' r'] eqn:R.
    + destruct (p c); [reflexivity|]. cbn [clean]. now rewrite A, U.
    + rewrite <- R in IH |- *. cbn [clean]. rewrite A, U. exact IH.
  - apply andb_prop in H as [H0 H]. specialize (IH _ H).
    destruct (rstrip_by p r) as [|c' r'] eqn:R.
    + destruct (p c); [reflexivity|]. cbn [clean]. now rewrite A, H0.
    + rewrite <- R in IH |- *. cbn [clean]. rewrite A, H0. exact IH.
Qed.

Lemma lstrip_idem p s : lstrip_by p (lstrip_by p s) = lstrip_by p s.
Proof.
  induction s as [|c r IH]; [reflexivity|]. cbn [lstrip_by].
  destruct (p c) eqn:P; [exact IH|]. cbn [lstrip_by]. now rewrite P.
Qed.

Lemma rstrip_idem p s : rstrip_by p (rstrip_by p s) = rstrip_by p s.
Proof.
  induction s as [|c r IH]; [reflexivity|]. cbn [rstrip_by].
  destruct (rstrip_by p r) as [|c' r'] eqn:R.
  - destruct (p c) eqn:P; [reflexivity|]. cbn [rstrip_by]. now rewrite P.
  - cbn [rstrip_by] in IH |- *. rewrite IH. reflexivity.
Qed.

Lemma rstrip_lstrip p s :
  rstrip_by p (lstrip_by p s) = lstrip_by p (rstrip_by p s).
Proof.
  induction s as [|c r IH]; [reflexivity|]. cbn [lstrip_by rstrip_by].
  destruct (p c) eqn:P.
  - rewrite IH. destruct (rstrip_by p r) as [|c' r']; [reflexivity|].
    cbn [lstrip_by]. now rewrite P.
  - cbn [rstrip_by]. destruct (rstrip_by p r); cbn [lstrip_by]; rewrite ?P; reflexivity.
Qed.

Lemma strip_underscores_idem s :
  strip_underscores (strip_underscores s) = strip_underscores s.
Proof.
  unfold strip_underscores.
  rewrite rstrip_lstrip, rstrip_idem, lstrip_idem. reflexivity.
Qed.

Lemma clean_strip_underscores s :
  clean false s = true -> clean false (strip_underscores s) = true.
Proof.
  intros H. unfold strip_underscores. apply (clean_lstrip _ false).
  apply clean_rstrip. exact H.
Qed.

(** X5: [normalize_column_name] is idempotent: a name it has produced is
    left as it is, so normalised names can be fed back, e.g. as keys of
    an alias table. *)
Theorem normalize_column_name_idem (name : string) :
  normalize_column_name (normalize_column_name name) = normalize_column_name name.
Proof.
  unfold normalize_column_name at 2 3. rewrite !collapse_replace.
  set (t := replace_runs false (lower name)).
  assert (Ht : clean false t = true) by apply replace_runs_lower_clean.
  destruct (String.eqb_spec (strip_underscores t) "") as [E|E].
  - unfold normalize_column_name. rewrite collapse_replace, lower_idem.
    fold t. rewrite E. reflexivity.
  - set (u := strip_underscores t).
    assert (Hu : clean false u = true) by now apply clean_strip_underscores.
    unfold normalize_column_name. rewrite collapse_replace.
    rewrite (clean_lower _ _ Hu), (clean_replace_runs _ _ Hu).
    unfold u. rewrite strip_underscores_idem. fold u.
    destruct (String.eqb_spec u ""); [contradiction | reflexivity].
Qed.

Lemma is_alnum_lower c : is_alnum (ascii_lower c) = is_alnum c.
Proof. destruct c as [[] [] [] [] [] [] [] []]; reflexivity. Qed.

Lemma in_lower c s :
  In c (list_ascii_of_string s) -> In (ascii_lower c) (list_ascii_of_string (lower s)).
Proof.
  induction s as [|d r IH]; cbn; [tauto|]. intros [<-|H]; [now left | right; now apply IH].
Qed.

Lemma lower_no_alnum s :
  (forall c, In c (list_ascii_of_string s) -> is_alnum c = false) ->
  forall c, In c (list_ascii_of_string (lower s)) -> is_alnum c = false.
Proof.
  induction s as [|d r IH]; cbn; [tauto|]. intros H c [<-|Hc].
  - rewrite is_alnum_lower. auto.
  - apply IH; auto.
Qed.

Lemma in_replace_runs c s : forall b,
  In c (list_ascii_of_string s) -> is_alnum c = true ->
  In c (list_ascii_of_string (replace_runs b s)).
Proof.
  induction s as [|d r IH]; intros b Hin A; cbn in Hin; [tauto|]. cbn [replace_runs].
  destruct Hin as [<-|Hin].
  - rewrite A. now left.
  - destruct (is_alnum d); [right; auto|]. destruct b; [auto | right; auto].
Qed.

Lemma replace_runs_no_alnum s : forall b,
  (forall c, In c (list_ascii_of_string s) -> is_alnum c = false) ->
  forall c, In c (list_ascii_of_string (replace_runs b s)) -> is_underscore c = true.
Proof.
  induction s as [|d r IH]; intros b H c Hc; cbn in Hc; [tauto|].
  assert (Hd : is_alnum d = false) by (apply H; cbn; auto).
  assert (Hr : forall c, In c (list_ascii_of_string r) -> is_alnum c = false)
    by (intros; apply H; cbn; auto).
  cbn [replace_runs] in Hc. rewrite Hd in Hc. destruct b.
  - exact (IH true Hr c Hc).
  - cbn in Hc. destruct Hc as [<-|Hc]; [reflexivity | exact (IH true Hr c Hc)].
Qed.

Lemma rstrip_keeps p c s :
  In c (list_ascii_of_string s) -> p c = false -> In c (list_ascii_of_string (rstrip_by p s)).
Proof.
  induction s as [|d r IH]; intros Hin P; cbn in Hin; [tauto|]. cbn [rstrip_by].
  destruct Hin as [<-|Hin].
  - destruct (rstrip_by p r); [rewrite P|]; now left.
  - specialize (IH Hin P). destruct (rstrip_by p r); [contradiction | right; exact IH].
Qed.

Lemma lstrip_nonempty p c s :
  In c (list_ascii_of_string s) -> p c = false -> lstrip_by p s <> "".
Proof.
  induction s as [|d r IH]; intros Hin P; cbn in Hin; [tauto|]. cbn [lstrip_by].
  destruct Hin as [<-|Hin]; [rewrite P; discriminate|].
  destruct (p d); [auto | discriminate].
Qed.

Lemma rstrip_all p s :
  (forall c, In c (list_ascii_of_string s) -> p c = true) -> rstrip_by p s = "".
Proof.
  induction s as [|d r IH]; intros H; [reflexivity|]. cbn [rstrip_by].
  rewrite IH by (intros; apply H; cbn; auto). rewrite (H d) by (cbn; auto). reflexivity.
Qed.

(** X6: when the name has an ASCII letter or digit, its normalised form is
    non-empty, consists of lowercase letters, digits and single
    underscores between them ([clean false]), and neither starts nor ends
    with an underscore; when it has none, the normalised form is the
    lowercased name itself. *)
Theorem normalize_column_name_shape (name : string) :
  ((exists c, In c (list_ascii_of_string name) /\ is_alnum c = true) ->
   normalize_column_name name <> "" /\
   clean false (normalize_column_name name) = true /\
   strip_underscores (normalize_column_name name) = normalize_column_name name) /\
  ((forall c, In c (list_ascii_of_string name) -> is_alnum c = false) ->
   normalize_column_name name = lower name).
Proof.
  unfold normalize_column_name. rewrite collapse_replace.
  set (t := replace_runs false (lower name)).
  assert (Ht : clean false t = true) by apply replace_runs_lower_clean.
  split.
  - intros [c [Hin A]].
    assert (Hnz : strip_underscores t <> "").
    { unfold strip_underscores. apply (lstrip_nonempty _ (ascii_lower c)).
      - apply rstrip_keeps.
        + apply in_replace_runs; [now apply in_lower | now rewrite is_alnum_lower].
        + apply alnum_not_underscore. now rewrite is_alnum_lower.
      - apply alnum_not_underscore. now rewrite is_alnum_lower. }
    destruct (String.eqb_spec (strip_underscores t) ""); [contradiction|].
    split; [exact Hnz|]. split; [now apply clean_strip_underscores|].
    apply strip_underscores_idem.
  - intros H.
    assert (E : strip_underscores t = "").
    { unfold strip_underscores. rewrite rstrip_all; [reflexivity|].
      apply replace_runs_no_alnum. now apply lower_no_alnum. }
    rewrite E. reflexivity.
Qed.

Lemma normalize_column_name_shape_witness :
  (normalize_column_name "__Size/Off (kB)" <> "" /\
   clean false (normalize_column_name "__Size/Off (kB)") = true /\
   strip_underscores (normalize_column_name "__Size/Off (kB)")
     = normalize_column_name "__Size/Off (kB)") /\
  normalize_column_name "%%" = lower "%%".
Proof.
  split.
  - apply (proj1 (normalize_column_name_shape "__Size/Off (kB)")).
    exists "S"%char. split; [cbn; right; right; left; reflexivity | reflexivity].
  - apply (proj2 (normalize_column_name_shape "%%")).
    cbn. intros c [<-|[<-|[]]]; reflexivity.
Defined.

(* ------------------------------------------------------------------ *)
(** ** [safe_int] *)

Lemma digit_char d : d < 10 ->
  is_digit (ascii_of_nat (48 + d)) = true /\ nat_of_ascii (ascii_of_nat (48 + d)) - 48 = d.
Proof.
  intros H. unfold is_digit, in_range. rewrite Ascii.nat_ascii_embedding by lia.
  replace (48 + d - 48) with d by lia.
  split; [apply andb_true_iff; split; apply Nat.leb_le; lia | reflexivity].
Qed.

Lemma int_digits_value ds : forall acc, Forall (fun d => d < 10) ds ->
  int_digits acc false (digits_string ds)
  = Some (fold_left (fun acc d => (acc * 10 + Z.of_nat d)%Z) ds acc).
Proof.
  induction ds as [|d ds IH]; intros acc H; [reflexivity|].
  inversion H as [|? ? Hd Hds]; subst.
  destruct (digit_char d Hd) as [D V].
  unfold digits_string. cbn [map string_of_list_ascii int_digits]. rewrite D, V.
  apply IH, Hds.
Qed.

Lemma digits_no_space ds : Forall (fun d => d < 10) ds ->
  forall c, In c (list_ascii_of_string (digits_string ds)) -> is_space c = false.
Proof.
  intros H c Hc. unfold digits_string in Hc.
  rewrite list_ascii_of_string_of_list_ascii in Hc.
  apply in_map_iff in Hc as [d [<- Hin]].
  rewrite Forall_forall in H. specialize (H d Hin).
  unfold is_space. rewrite Ascii.nat_ascii_embedding by lia.
  apply orb_false_iff. split; apply andb_false_iff; right; apply Nat.leb_gt; lia.
Qed.

Lemma rstrip_none p s :
  (forall c, In c (list_ascii_of_string s) -> p c = false) -> rstrip_by p s = s.
Proof.
  induction s as [|c r IH]; intros H; [reflexivity|]. cbn [rstrip_by].
  rewrite IH by (intros; apply H; cbn; auto).
  destruct r; [|reflexivity]. rewrite (H c) by (cbn; auto). reflexivity.
Qed.

Lemma strip_no_space s :
  (forall c, In c (list_ascii_of_string s) -> is_space c = false) -> strip s = s.
Proof.
  intros H. unfold strip. rewrite rstrip_none by exact H.
  destruct s as [|c r]; [reflexivity|]. cbn. rewrite (H c) by (cbn; auto). reflexivity.
Qed.

Lemma count_digits_digits ds :
  Forall (fun d => d < 10) ds -> count_digits (digits_string ds) = List.length ds.
Proof.
  induction 1 as [|d ds Hd _ IH]; [reflexivity|].
  destruct (digit_char d Hd) as [D _].
  unfold digits_string. cbn [map string_of_list_ascii count_digits]. rewrite D.
  fold (digits_string ds). rewrite IH. reflexivity.
Qed.

(** X7: [safe_int] reads a decimal numeral back: for a non-empty list of
    at most [int_max_str_digits] (4300) digits, the numeral, the numeral
    with a leading [+] and the numeral with a leading [-] convert to its
    value, the same value and its negation (leading zeros allowed); with
    more digits [int()] raises [ValueError] and all three give [0]. *)
Theorem safe_int_digits (ds : list nat) (Hd : Forall (fun d => d < 10) ds) (Hne : ds <> []) :
  (List.length ds <= int_max_str_digits ->
   safe_int (digits_string ds) = digits_value ds /\
   safe_int (String "+" (digits_string ds)) = digits_value ds /\
   safe_int (String "-" (digits_string ds)) = (- digits_value ds)%Z) /\
  (int_max_str_digits < List.length ds ->
   safe_int (digits_string ds) = 0%Z /\
   safe_int (String "+" (digits_string ds)) = 0%Z /\
   safe_int (String "-" (digits_string ds)) = 0%Z).
Proof.
  assert (Hs := digits_no_space ds Hd).
  assert (C := count_digits_digits ds Hd).
  assert (Cp : count_digits (String "+" (digits_string ds)) = List.length ds)
    by (cbn [count_digits]; rewrite C; reflexivity).
  assert (Cm : count_digits (String "-" (digits_string ds)) = List.length ds)
    by (cbn [count_digits]; rewrite C; reflexivity).
  assert (Sg : forall c, is_space c = false -> strip (String c (digits_string ds)) = String c (digits_string ds)).
  { intros c Hc. apply strip_no_space. cbn. intros c' [<-|H]; auto. }
  unfold safe_int, python_int.
  rewrite (Sg "+"%char eq_refl), (Sg "-"%char eq_refl), strip_no_space by exact Hs.
  rewrite C, Cp, Cm.
  split; intros Hlen.
  2: { replace (int_max_str_digits <? List.length ds) with true
         by (symmetry; apply Nat.ltb_lt; exact Hlen).
       cbn [String.eqb]. destruct (String.eqb (digits_string ds) ""); repeat split; reflexivity. }
  replace (int_max_str_digits <? List.length ds) with false
    by (symmetry; apply Nat.ltb_ge; exact Hlen).
  assert (U : int_unsigned (digits_string ds) = Some (digits_value ds)).
  { destruct ds as [|d ds]; [congruence|]. inversion Hd as [|? ? Hd0 Hds]; subst.
    destruct (digit_char d Hd0) as [D V].
    unfold digits_string. cbn [map string_of_list_ascii int_unsigned]. rewrite D, V.
    fold (digits_string ds). rewrite int_digits_value by exact Hds. reflexivity. }
  cbn [String.eqb Ascii.eqb].
  destruct ds as [|d ds]; [congruence|].
  inversion Hd as [|? ? Hd0 _]; subst.
  destruct (digit_char d Hd0) as [D _].
  unfold digits_string. cbn [map string_of_list_ascii]. fold (digits_string ds).
  fold (digits_string (d :: ds)) in U.
  assert (Nm : Ascii.eqb (ascii_of_nat (48 + d)) "-"%char = false /\
               Ascii.eqb (ascii_of_nat (48 + d)) "+"%char = false).
  { split; apply Ascii.eqb_neq; intros E; rewrite E in D; discriminate. }
  destruct Nm as [N1 N2]. rewrite N1, N2.
  replace (String (ascii_of_nat (48 + d)) (digits_string ds)) with (digits_string (d :: ds))
    by reflexivity.
  rewrite U. cbn [String.eqb]. destruct (ascii_of_nat (48 + d)); cbn -[Z.opp].
  repeat split; reflexivity.
Qed.

Lemma safe_int_digits_witness :
  (safe_int "0042" = 42%Z /\ safe_int "+0042" = 42%Z /\ safe_int "-0042" = (-42)%Z) /\
  safe_int (String "-" (digits_string (repeat 7 4301))) = 0%Z.
Proof.
  split.
  - exact (proj1 (safe_int_digits [0; 0; 4; 2] ltac:(repeat constructor; lia) ltac:(discriminate))
             ltac:(cbv; lia)).
  - refine (proj2 (proj2 (proj2 (safe_int_digits (repeat 7 4301) _ _) _))).
    + apply Forall_forall. intros d Hin. apply repeat_spec in Hin. lia.
    + discriminate.
    + rewrite repeat_length. cbv. lia.
Defined.
